(** * The runtime interface of the OpenXR loader

    A shallow embedding of [src/loader/runtime_interface.cpp]: the scan of
    the runtime manifests with the negotiation handshake, the per-instance
    dispatch-table cache, the debug-messenger registry and the merge of the
    extension lists.

    Handles, result codes and versions are integers ([Z]); the two
    [std::unordered_map]s are [gmap]s; vectors are lists.  Calls that leave
    the loader (platform library loader, manifest search, runtime entry
    points) are recorded, oldest first, in a trace, so that "is never
    opened" or "is invoked once" are statements about that trace.  The
    trace has the calls of the functions themselves; looking a function up
    ([LoaderPlatformLibraryGetProcAddr], the runtime's getter) is not
    recorded.  The logger is fire and forget and is left out. *)

From Stdlib Require Import ZArith Lia Bool List String.
From stdpp Require Import gmap strings list.
Import ListNotations.

Local Open Scope Z_scope.

(** ** Result codes and handles *)

Abbreviation XrResult := Z (only parsing).

(** Modelled from the spec: the result codes are declared in
    [openxr/openxr.h], which is not under src/; the values are those of the
    OpenXR registry, and only their sign and their being distinct matter. *)
Definition XR_SUCCESS : XrResult := 0.
Definition XR_ERROR_VALIDATION_FAILURE : XrResult := -1.
Definition XR_ERROR_RUNTIME_FAILURE : XrResult := -2.
Definition XR_ERROR_INITIALIZATION_FAILED : XrResult := -6.
Definition XR_ERROR_INSTANCE_LOST : XrResult := -13.
Definition XR_ERROR_FILE_ACCESS_ERROR : XrResult := -32.
Definition XR_ERROR_FILE_CONTENTS_INVALID : XrResult := -33.

Definition XR_SUCCEEDED (result : XrResult) : bool := 0 <=? result.
Definition XR_FAILED (result : XrResult) : bool := result <? 0.

(** [XrInstance] and [XrDebugUtilsMessengerEXT] are 64-bit opaque handles. *)
Abbreviation XrInstance := Z (only parsing).
Abbreviation XrDebugUtilsMessengerEXT := Z (only parsing).
Definition XR_NULL_HANDLE : Z := 0.

(** ** Versions *)

(** Modelled from the spec: the packing macros of [openxr/openxr.h] (major
    in the top 16 bits, minor in the next 16, patch in the low 32). *)
Definition XR_MAKE_VERSION (major minor patch : Z) : Z :=
  Z.lor (Z.lor (Z.shiftl (Z.land major 65535) 48)
               (Z.shiftl (Z.land minor 65535) 32))
        (Z.land patch 4294967295).
Definition XR_VERSION_MAJOR (version : Z) : Z := Z.land (Z.shiftr version 48) 65535.
Definition XR_VERSION_MINOR (version : Z) : Z := Z.land (Z.shiftr version 32) 65535.

(** What the build fixes: the [XR_KHR_LOADER_INIT_SUPPORT] switch and the
    two constants of the headers that the negotiation compares against. *)
Record LoaderBuild := {
  XR_KHR_LOADER_INIT_SUPPORT : bool;
  XR_CURRENT_LOADER_RUNTIME_VERSION : Z;
  XR_CURRENT_API_VERSION : Z
}.

(** ** Extension properties *)

(** [XrExtensionProperties]: the name is a NUL-terminated [char] array
    compared with [strcmp], the version a [uint32_t]. *)
Record XrExtensionProperties := {
  extensionName : string;
  extensionVersion : Z
}.

Definition strcmp_eq (a b : string) : bool := String.eqb a b.

(** ** The runtime behind an entry-point getter *)

(** [XrGeneratedDispatchTable]: the table records the instance it was
    populated for and whether every name resolved. *)
Record XrGeneratedDispatchTable := {
  table_instance : XrInstance;
  table_complete : bool
}.

(** A non-null [PFN_xrGetInstanceProcAddr].  The source calls whatever the
    getter hands back without looking at the getter's result, so the three
    entry points it asks for are taken as resolved.  The runtime keeps state
    of its own, so what [xrCreateInstance] answers is an argument of
    [CreateInstance] below, not a field here. *)
Record RuntimeProcs := {
  rt_xrEnumerateInstanceExtensionProperties : list XrExtensionProperties;
  rt_resolves_all : XrInstance -> bool
}.

Definition PFN_xrGetInstanceProcAddr := option RuntimeProcs.

(** Modelled from the spec: [GeneratedXrPopulateDispatchTable] is generated
    code that is not under src/.  It is the single step that resolves every
    required name against the instance-scoped resolver and succeeds or
    fails; the table says which.  The call site is a statement: nothing the
    step may report reaches the caller's [res]. *)
Definition GeneratedXrPopulateDispatchTable (instance : XrInstance)
    (get_inst_proc_addr : RuntimeProcs) : XrGeneratedDispatchTable :=
  {| table_instance := instance;
     table_complete := rt_resolves_all get_inst_proc_addr instance |}.

(** ** Negotiation records *)

Record XrNegotiateLoaderInfo := {
  minInterfaceVersion : Z;
  maxInterfaceVersion : Z;
  minApiVersion : Z;
  maxApiVersion : Z
}.

Record XrNegotiateRuntimeRequest := {
  runtimeInterfaceVersion : Z;
  runtimeApiVersion : Z;
  getInstanceProcAddr : PFN_xrGetInstanceProcAddr
}.

(** [XrNegotiateRuntimeRequest runtime_info = {}] *)
Definition runtime_info_zero : XrNegotiateRuntimeRequest :=
  {| runtimeInterfaceVersion := 0; runtimeApiVersion := 0; getInstanceProcAddr := None |}.

(** ** The platform: libraries and manifests *)

(** What an opened library exports, looked up by symbol name:
    [xrInitializeLoaderKHR] answers a result, the negotiation function
    answers a result and fills the runtime's record. *)
Record RuntimeLibrary := {
  proc_initialize : string -> option XrResult;
  proc_negotiate :
    string -> option (XrNegotiateLoaderInfo -> XrNegotiateRuntimeRequest ->
                      XrResult * XrNegotiateRuntimeRequest)
}.

Record RuntimeManifestFile := {
  Filename : string;
  LibraryPath : string;
  GetFunctionName : string -> string
}.

Record Platform := {
  LoaderPlatformLibraryOpen : string -> option RuntimeLibrary;
  FindManifestFiles : XrResult * list RuntimeManifestFile
}.

(** Calls that leave the loader: the manifest search, the opening and
    closing of a library, and the calls of the runtime's functions.  The
    lookups of a symbol in a library or through the getter have no event. *)
Inductive Event :=
| EvFindManifestFiles
| EvLibraryOpen (path : string)
| EvLibraryClose (path : string)
| EvInitializeLoader (path : string)
| EvNegotiate (path : string)
| EvEnumerateExtensions
| EvCreateInstance
| EvDestroyInstance (instance : XrInstance).

(** ** The session *)

Record RuntimeInterface := {
  _runtime_library : string;
  _get_instance_proc_addr : RuntimeProcs;
  _dispatch_table_map : gmap Z XrGeneratedDispatchTable;
  _messenger_to_instance_map : gmap Z Z;
  _supported_extensions : list string
}.

(** The constructor: library and getter, everything else empty. *)
Definition RuntimeInterface_new (runtime_library : string)
    (get_instance_proc_addr : RuntimeProcs) : RuntimeInterface :=
  {| _runtime_library := runtime_library;
     _get_instance_proc_addr := get_instance_proc_addr;
     _dispatch_table_map := ∅;
     _messenger_to_instance_map := ∅;
     _supported_extensions := [] |}.

Definition with_dispatch_table_map (self : RuntimeInterface)
    (m : gmap Z XrGeneratedDispatchTable) : RuntimeInterface :=
  {| _runtime_library := _runtime_library self;
     _get_instance_proc_addr := _get_instance_proc_addr self;
     _dispatch_table_map := m;
     _messenger_to_instance_map := _messenger_to_instance_map self;
     _supported_extensions := _supported_extensions self |}.

Definition with_messenger_to_instance_map (self : RuntimeInterface)
    (m : gmap Z Z) : RuntimeInterface :=
  {| _runtime_library := _runtime_library self;
     _get_instance_proc_addr := _get_instance_proc_addr self;
     _dispatch_table_map := _dispatch_table_map self;
     _messenger_to_instance_map := m;
     _supported_extensions := _supported_extensions self |}.

Definition SetSupportedExtensions (self : RuntimeInterface)
    (supported_extensions : list string) : RuntimeInterface :=
  {| _runtime_library := _runtime_library self;
     _get_instance_proc_addr := _get_instance_proc_addr self;
     _dispatch_table_map := _dispatch_table_map self;
     _messenger_to_instance_map := _messenger_to_instance_map self;
     _supported_extensions := supported_extensions |}.

(** The process: the singleton behind [GetInstance()], the flag of
    [LoaderInitData], and the trace. *)
Record World := {
  w_instance : option RuntimeInterface;
  w_initialized : bool;
  w_trace : list Event
}.

Definition emit (e : Event) (w : World) : World :=
  {| w_instance := w_instance w; w_initialized := w_initialized w;
     w_trace := w_trace w ++ [e] |}.

(** [~RuntimeInterface]: the cache is cleared, the library closed. *)
Definition RuntimeInterface_destroy (self : RuntimeInterface) : list Event :=
  [EvLibraryClose (_runtime_library self)].

(** [GetInstance().reset(p)]: the new value is stored, then the old
    object, if any, is destroyed. *)
Definition reset (p : option RuntimeInterface) (w : World) : World :=
  {| w_instance := p; w_initialized := w_initialized w;
     w_trace := w_trace w ++ match w_instance w with
                             | Some old => RuntimeInterface_destroy old
                             | None => []
                             end |}.

Definition set_instance (self : RuntimeInterface) (w : World) : World :=
  {| w_instance := Some self; w_initialized := w_initialized w;
     w_trace := w_trace w |}.

(** ** GetInstanceExtensionProperties *)

(** The inner loop over [prop < props_count]: the first entry of the first
    [props_count] whose name equals the runtime's gets the runtime's
    version; [found] tells whether there was one. *)
Fixpoint scan_props (props_count : nat) (extension_properties : list XrExtensionProperties)
    (rt_ext : XrExtensionProperties) : bool * list XrExtensionProperties :=
  match props_count, extension_properties with
  | S n, p :: rest =>
      if strcmp_eq (extensionName p) (extensionName rt_ext)
      then (true, {| extensionName := extensionName p;
                     extensionVersion := extensionVersion rt_ext |} :: rest)
      else let '(found, rest') := scan_props n rest rt_ext in (found, p :: rest')
  | _, _ => (false, extension_properties)
  end.

(** The outer loop over the runtime's entries; [props_count] was read
    before the loop and does not follow the appends. *)
Fixpoint merge_runtime_extensions (props_count : nat)
    (runtime_extension_properties extension_properties : list XrExtensionProperties)
    : list XrExtensionProperties :=
  match runtime_extension_properties with
  | [] => extension_properties
  | rt_ext :: more =>
      let '(found, props) := scan_props props_count extension_properties rt_ext in
      merge_runtime_extensions props_count more
        (if found then props else props ++ [rt_ext])
  end.

(** The two calls of the runtime's enumeration: the first asks for the
    count, the second fills a vector of that size. *)
Definition enumerate_two_call (gipa : RuntimeProcs) : list XrExtensionProperties * list Event :=
  let reported := rt_xrEnumerateInstanceExtensionProperties gipa in
  let count_output := length reported in
  if (0 <? count_output)%nat
  then (take count_output reported, [EvEnumerateExtensions; EvEnumerateExtensions])
  else ([], [EvEnumerateExtensions]).

Definition GetInstanceExtensionProperties (self : RuntimeInterface)
    (extension_properties : list XrExtensionProperties)
    : list XrExtensionProperties * list Event :=
  let '(runtime_extension_properties, evs) := enumerate_two_call (_get_instance_proc_addr self) in
  let props_count := length extension_properties in
  (merge_runtime_extensions props_count runtime_extension_properties extension_properties, evs).

Definition SupportsExtension (self : RuntimeInterface) (extension_name : string) : bool :=
  existsb (fun supported_extension => String.eqb supported_extension extension_name)
          (_supported_extensions self).

(** ** Negotiation *)

Definition make_loader_info (build : LoaderBuild) : XrNegotiateLoaderInfo :=
  {| minInterfaceVersion := 1;
     maxInterfaceVersion := XR_CURRENT_LOADER_RUNTIME_VERSION build;
     minApiVersion := XR_MAKE_VERSION 1 0 0;
     maxApiVersion := XR_MAKE_VERSION 1 1023 4095 |}.

(** The checks on a negotiation that "supposedly succeeded": the chain of
    [if] / [else if] that turns [res] into [XR_ERROR_FILE_CONTENTS_INVALID]. *)
Definition check_negotiation (build : LoaderBuild) (res : XrResult)
    (runtime_info : XrNegotiateRuntimeRequest) : XrResult :=
  if XR_SUCCEEDED res then
    let runtime_major := XR_VERSION_MAJOR (runtimeApiVersion runtime_info) in
    let runtime_minor := XR_VERSION_MINOR (runtimeApiVersion runtime_info) in
    let loader_major := XR_VERSION_MAJOR (XR_CURRENT_API_VERSION build) in
    match getInstanceProcAddr runtime_info with
    | None => XR_ERROR_FILE_CONTENTS_INVALID
    | Some _ =>
        if (0 >=? runtimeInterfaceVersion runtime_info)
           || (XR_CURRENT_LOADER_RUNTIME_VERSION build <? runtimeInterfaceVersion runtime_info)
        then XR_ERROR_FILE_CONTENTS_INVALID
        else if negb (runtime_major =? loader_major)
                || ((runtime_major =? 0) && (runtime_minor =? 0))
        then XR_ERROR_FILE_CONTENTS_INVALID
        else res
    end
  else res.

(** The [XR_KHR_LOADER_INIT_SUPPORT] block: the result of the forwarded
    [xrInitializeLoaderKHR], when the build has the block and the library
    exports the function. *)
Definition forward_initialize (build : LoaderBuild) (manifest_file : RuntimeManifestFile)
    (runtime_library : RuntimeLibrary) : option XrResult :=
  if XR_KHR_LOADER_INIT_SUPPORT build
  then proc_initialize runtime_library (GetFunctionName manifest_file "xrInitializeLoaderKHR")
  else None.

(** The call of the negotiation function, [XR_ERROR_RUNTIME_FAILURE] when
    the library has none. *)
Definition call_negotiate (build : LoaderBuild) (manifest_file : RuntimeManifestFile)
    (runtime_library : RuntimeLibrary) : XrResult * XrNegotiateRuntimeRequest * list Event :=
  match proc_negotiate runtime_library
          (GetFunctionName manifest_file "xrNegotiateLoaderRuntimeInterface") with
  | Some negotiate =>
      let '(res, runtime_info) := negotiate (make_loader_info build) runtime_info_zero in
      (res, runtime_info, [EvNegotiate (LibraryPath manifest_file)])
  | None => (XR_ERROR_RUNTIME_FAILURE, runtime_info_zero, [])
  end.

Definition emits (evs : list Event) (w : World) : World :=
  {| w_instance := w_instance w; w_initialized := w_initialized w;
     w_trace := w_trace w ++ evs |}.

(** "Use this runtime": the new session replaces the old one, its
    supported extensions are read from the runtime. *)
Definition use_runtime (path : string) (gipa : RuntimeProcs) (w : World) : World :=
  let w := reset (Some (RuntimeInterface_new path gipa)) w in
  let self := RuntimeInterface_new path gipa in
  let '(extension_properties, evs) := GetInstanceExtensionProperties self [] in
  let supported_extensions := map extensionName extension_properties in
  emits evs (set_instance (SetSupportedExtensions self supported_extensions) w).

(** [any_loaded] and [last_error] are the two reference parameters; they
    come back as the first component of the result.  The session is built
    from the getter of [runtime_info], which is not null once the checks
    have let [res] through ([accepted_negotiation_has_getter] below). *)
Definition TryLoadingSingleRuntime (build : LoaderBuild) (plat : Platform)
    (manifest_file : RuntimeManifestFile) (any_loaded : bool) (last_error : XrResult)
    (w : World) : (bool * XrResult) * World :=
  let path := LibraryPath manifest_file in
  let w := emit (EvLibraryOpen path) w in
  match LoaderPlatformLibraryOpen plat path with
  | None =>
      ((any_loaded, if negb any_loaded then XR_ERROR_INSTANCE_LOST else last_error), w)
  | Some runtime_library =>
      let initialize := forward_initialize build manifest_file runtime_library in
      let w := match initialize with
               | Some _ => emit (EvInitializeLoader path) w
               | None => w
               end in
      let initialize_failed :=
        match initialize with
        | Some res => if negb (XR_SUCCEEDED res) then Some res else None
        | None => None
        end in
      match initialize_failed with
      | Some res => ((any_loaded, res), emit (EvLibraryClose path) w)
      | None =>
          let '(res, runtime_info, evs) := call_negotiate build manifest_file runtime_library in
          let w := emits evs w in
          let res := check_negotiation build res runtime_info in
          match XR_FAILED res, getInstanceProcAddr runtime_info with
          | false, Some gipa => ((true, XR_SUCCESS), use_runtime path gipa w)
          | _, _ =>
              ((any_loaded, if negb any_loaded then res else last_error),
               emit (EvLibraryClose path) w)
          end
      end
  end.

(** The [for] loop of [LoadRuntime]: every manifest of the list, in order. *)
Fixpoint scan_manifest_files (build : LoaderBuild) (plat : Platform)
    (runtime_manifest_files : list RuntimeManifestFile) (any_loaded : bool)
    (last_error : XrResult) (w : World) : (bool * XrResult) * World :=
  match runtime_manifest_files with
  | [] => ((any_loaded, last_error), w)
  | manifest_file :: rest =>
      let '((any_loaded, last_error), w) :=
        TryLoadingSingleRuntime build plat manifest_file any_loaded last_error w in
      scan_manifest_files build plat rest any_loaded last_error w
  end.

Definition LoadRuntime (build : LoaderBuild) (plat : Platform) (w : World) : XrResult * World :=
  match w_instance w with
  | Some _ => (XR_SUCCESS, w)
  | None =>
      if XR_KHR_LOADER_INIT_SUPPORT build && negb (w_initialized w)
      then (XR_ERROR_INITIALIZATION_FAILED, w)
      else
        let w := emit EvFindManifestFiles w in
        let '(found, runtime_manifest_files) := FindManifestFiles plat in
        let '((any_loaded, last_error), w) :=
          if XR_FAILED found
          then ((false, XR_ERROR_FILE_ACCESS_ERROR), w)
          else scan_manifest_files build plat runtime_manifest_files false found w in
        (if negb any_loaded then XR_ERROR_INSTANCE_LOST else last_error, w)
  end.

Definition UnloadRuntime (w : World) : World :=
  match w_instance w with
  | Some _ => reset None w
  | None => w
  end.

(** ** Dispatch tables and messengers *)

(** The static lookups go through [GetInstance()] without a check; they
    are stated on the bound session. *)
Definition GetDispatchTable (self : RuntimeInterface) (instance : XrInstance)
    : option XrGeneratedDispatchTable :=
  match _dispatch_table_map self !! instance with
  | Some table => Some table
  | None => None
  end.

(** The instance a messenger resolves to: [XR_NULL_HANDLE] unless the
    registry has it. *)
Definition messenger_instance (self : RuntimeInterface)
    (messenger : XrDebugUtilsMessengerEXT) : XrInstance :=
  match _messenger_to_instance_map self !! messenger with
  | Some runtime_instance => runtime_instance
  | None => XR_NULL_HANDLE
  end.

Definition GetDebugUtilsMessengerDispatchTable (self : RuntimeInterface)
    (messenger : XrDebugUtilsMessengerEXT) : option XrGeneratedDispatchTable :=
  GetDispatchTable self (messenger_instance self messenger).

(** [answer] is what the runtime's [xrCreateInstance] does on this call:
    its result and the handle it leaves in [*instance]. *)
Definition CreateInstance (answer : XrResult * XrInstance) (self : RuntimeInterface)
    (tr : list Event) : (XrResult * XrInstance) * (RuntimeInterface * list Event) :=
  let '(res, instance) := answer in
  let tr := tr ++ [EvCreateInstance] in
  let create_succeeded := XR_SUCCEEDED res in
  let self :=
    if XR_SUCCEEDED res
    then
      let dispatch_table :=
        GeneratedXrPopulateDispatchTable instance (_get_instance_proc_addr self) in
      with_dispatch_table_map self (<[instance := dispatch_table]> (_dispatch_table_map self))
    else self in
  if XR_FAILED res && create_succeeded
  then ((res, XR_NULL_HANDLE), (self, tr ++ [EvDestroyInstance instance]))
  else ((res, instance), (self, tr)).

Definition DestroyInstance (instance : XrInstance) (self : RuntimeInterface)
    (tr : list Event) : XrResult * (RuntimeInterface * list Event) :=
  if negb (XR_NULL_HANDLE =? instance)
  then
    let self :=
      match _dispatch_table_map self !! instance with
      | Some _ => with_dispatch_table_map self (delete instance (_dispatch_table_map self))
      | None => self
      end in
    (XR_SUCCESS, (self, tr ++ [EvDestroyInstance instance]))
  else (XR_SUCCESS, (self, tr)).

Definition TrackDebugMessenger (instance : XrInstance) (messenger : XrDebugUtilsMessengerEXT)
    (self : RuntimeInterface) : bool * RuntimeInterface :=
  (true, with_messenger_to_instance_map self
           (<[messenger := instance]> (_messenger_to_instance_map self))).

Definition ForgetDebugMessenger (messenger : XrDebugUtilsMessengerEXT)
    (self : RuntimeInterface) : RuntimeInterface :=
  if negb (XR_NULL_HANDLE =? messenger)
  then with_messenger_to_instance_map self (delete messenger (_messenger_to_instance_map self))
  else self.

(** The session that [use_runtime] binds for a library and its getter. *)
Definition session_of (path : string) (gipa : RuntimeProcs) : RuntimeInterface :=
  let self := RuntimeInterface_new path gipa in
  SetSupportedExtensions self
    (map extensionName (fst (GetInstanceExtensionProperties self []))).

(** ** Sequences of instance calls *)

Inductive InstanceCall :=
| CallCreateInstance (answer : XrResult * XrInstance)
| CallDestroyInstance (instance : XrInstance).

Definition step_call (st : RuntimeInterface * list Event) (c : InstanceCall)
    : RuntimeInterface * list Event :=
  match c with
  | CallCreateInstance answer => snd (CreateInstance answer (fst st) (snd st))
  | CallDestroyInstance instance => snd (DestroyInstance instance (fst st) (snd st))
  end.

Definition run_calls (calls : list InstanceCall) (st : RuntimeInterface * list Event)
    : RuntimeInterface * list Event :=
  fold_left step_call calls st.

(** A handle is live after [calls]: some [CreateInstance] that succeeded
    handed it out, and no later [DestroyInstance] was given it. *)
Definition live (calls : list InstanceCall) (h : XrInstance) : Prop :=
  exists pre res post,
    calls = pre ++ CallCreateInstance (res, h) :: post /\
    XR_SUCCEEDED res = true /\
    ~ In (CallDestroyInstance h) post.

(** The runtime keeps the contract of the API: an instance that was
    created is not the null handle. *)
Definition runtime_conformant (calls : list InstanceCall) : Prop :=
  forall res h, In (CallCreateInstance (res, h)) calls ->
                XR_SUCCEEDED res = true -> h <> XR_NULL_HANDLE.

Definition destroy_calls (tr : list Event) (instance : XrInstance) : nat :=
  length (List.filter (fun e => match e with
                           | EvDestroyInstance i => Z.eqb i instance
                           | _ => false
                           end) tr).

(** ** Candidates of a scan *)

Definition empty_world (initialized : bool) : World :=
  {| w_instance := None; w_initialized := initialized; w_trace := [] |}.

(** What a candidate binds when it is tried on its own: the session, or
    nothing when the library does not open, the forwarded initialisation
    fails or the negotiation is rejected. *)
Definition runtime_of (build : LoaderBuild) (plat : Platform)
    (manifest_file : RuntimeManifestFile) : option RuntimeInterface :=
  w_instance (snd (TryLoadingSingleRuntime build plat manifest_file false XR_SUCCESS
                     (empty_world true))).

Definition accepted (build : LoaderBuild) (plat : Platform)
    (manifest_file : RuntimeManifestFile) : bool :=
  match runtime_of build plat manifest_file with Some _ => true | None => false end.

(** The error a candidate leaves in the slot when it is tried on its own. *)
Definition candidate_error (build : LoaderBuild) (plat : Platform)
    (manifest_file : RuntimeManifestFile) : XrResult :=
  snd (fst (TryLoadingSingleRuntime build plat manifest_file false XR_SUCCESS
              (empty_world true))).

Definition library_opens (plat : Platform) (manifest_file : RuntimeManifestFile) : bool :=
  match LoaderPlatformLibraryOpen plat (LibraryPath manifest_file) with
  | Some _ => true
  | None => false
  end.

Fixpoint opened_libraries (tr : list Event) : list string :=
  match tr with
  | [] => []
  | EvLibraryOpen path :: rest => path :: opened_libraries rest
  | _ :: rest => opened_libraries rest
  end.

(** A scan takes place: nothing is bound, the initialisation gate is
    passed and the manifest search succeeds. *)
Definition scans (build : LoaderBuild) (plat : Platform) (w : World) : Prop :=
  w_instance w = None /\
  XR_KHR_LOADER_INIT_SUPPORT build && negb (w_initialized w) = false /\
  XR_FAILED (fst (FindManifestFiles plat)) = false.

(** "The first candidate in manifest order that successfully negotiates
    wins; later candidates are never tried once bound." *)
Definition first_match_wins (build : LoaderBuild) (plat : Platform) (w : World) : Prop :=
  forall pre manifest_file post,
    snd (FindManifestFiles plat) = pre ++ manifest_file :: post ->
    forallb (fun m => negb (accepted build plat m)) pre = true ->
    accepted build plat manifest_file = true ->
    let w' := snd (LoadRuntime build plat w) in
    w_instance w' = runtime_of build plat manifest_file /\
    opened_libraries (w_trace w') =
      opened_libraries (w_trace w) ++ map LibraryPath (pre ++ [manifest_file]).

(** "If every candidate fails to open, the aggregate result is
    InstanceLost; if at least one opens but all negotiations are rejected,
    the aggregate result reflects the negotiation-specific rejection code,
    not InstanceLost." *)
Definition aggregate_error_by_cause (build : LoaderBuild) (plat : Platform) (w : World) : Prop :=
  let files := snd (FindManifestFiles plat) in
  let '(res, w') := LoadRuntime build plat w in
  w_instance w' = None ->
  (forallb (fun m => negb (library_opens plat m)) files = true ->
     res = XR_ERROR_INSTANCE_LOST) /\
  (existsb (library_opens plat) files = true ->
     res <> XR_ERROR_INSTANCE_LOST /\
     exists m, In m files /\ library_opens plat m = true /\ res = candidate_error build plat m).

(** ** Reading a merged extension list *)

(** Index of the first entry with the given name. *)
Fixpoint find_first (name : string) (l : list XrExtensionProperties) : option nat :=
  match l with
  | [] => None
  | p :: rest =>
      if strcmp_eq (extensionName p) name then Some 0%nat
      else option_map S (find_first name rest)
  end.

Definition has_name (name : string) (l : list XrExtensionProperties) : bool :=
  existsb (fun p => strcmp_eq (extensionName p) name) l.

(** The version the runtime reports for a name: that of its last entry
    with the name, when it lists the name more than once. *)
Definition reported_version (name : string) (rt : list XrExtensionProperties) : option Z :=
  option_map extensionVersion
    (last (List.filter (fun e => strcmp_eq (extensionName e) name) rt)).

(** The candidate entries after one entry of the runtime, and after all
    of them in turn. *)
Definition overwrite (rt_ext : XrExtensionProperties)
    (candidates : list XrExtensionProperties) : list XrExtensionProperties :=
  snd (scan_props (length candidates) candidates rt_ext).

Definition overwrite_all (rt candidates : list XrExtensionProperties)
    : list XrExtensionProperties :=
  fold_left (fun c e => overwrite e c) rt candidates.

(** The runtime's entries whose name no candidate has, in the runtime's order. *)
Definition runtime_only (candidates rt : list XrExtensionProperties)
    : list XrExtensionProperties :=
  List.filter (fun e => negb (has_name (extensionName e) candidates)) rt.

(** ** LoaderInitData *)

(** Modelled from the spec: the structure type tag is declared in
    [openxr/openxr.h]; only its being one fixed value matters. *)
Definition XR_TYPE_LOADER_INIT_INFO_ANDROID_KHR : Z := 1000089000.

Definition nullptr : Z := 0.

(** [XrLoaderInitInfoAndroidKHR]; pointers are addresses. *)
Record XrLoaderInitInfoAndroidKHR := {
  type : Z;
  next : Z;
  applicationVM : Z;
  applicationContext : Z
}.

Record LoaderInitData := {
  _data : XrLoaderInitInfoAndroidKHR;
  _initialized : bool
}.

(** [StructType _data = {}; bool _initialized = false;] *)
Definition LoaderInitData_instance : LoaderInitData :=
  {| _data := {| type := 0; next := nullptr; applicationVM := nullptr;
                 applicationContext := nullptr |};
     _initialized := false |}.

(** [LoaderInitData::initialize] for Android: the three checks, then the
    copy with [next] cleared. *)
Definition initialize (info : XrLoaderInitInfoAndroidKHR) (self : LoaderInitData)
    : XrResult * LoaderInitData :=
  if negb (type info =? XR_TYPE_LOADER_INIT_INFO_ANDROID_KHR)
  then (XR_ERROR_VALIDATION_FAILURE, self)
  else if applicationVM info =? nullptr
  then (XR_ERROR_VALIDATION_FAILURE, self)
  else if applicationContext info =? nullptr
  then (XR_ERROR_VALIDATION_FAILURE, self)
  else (XR_SUCCESS,
        {| _data := {| type := type info; next := nullptr;
                       applicationVM := applicationVM info;
                       applicationContext := applicationContext info |};
           _initialized := true |}).

Definition InitializeLoader (loaderInitInfo : XrLoaderInitInfoAndroidKHR)
    (singleton : LoaderInitData) : XrResult * LoaderInitData :=
  initialize loaderInitInfo singleton.

(** A run of [InitializeLoader] calls on the singleton. *)
Definition initialize_all (infos : list XrLoaderInitInfoAndroidKHR)
    (singleton : LoaderInitData) : LoaderInitData :=
  fold_left (fun d info => snd (InitializeLoader info d)) infos singleton.

(** What [initialize] accepts. *)
Definition valid_init_info (info : XrLoaderInitInfoAndroidKHR) : Prop :=
  type info = XR_TYPE_LOADER_INIT_INFO_ANDROID_KHR /\
  applicationVM info <> nullptr /\
  applicationContext info <> nullptr.

(** The singleton after a successful [initialize]. *)
Definition stored_info (info : XrLoaderInitInfoAndroidKHR) : LoaderInitData :=
  {| _data := {| type := type info; next := nullptr;
                 applicationVM := applicationVM info;
                 applicationContext := applicationContext info |};
     _initialized := true |}.

(** ** Reading a trace *)

Fixpoint closed_libraries (tr : list Event) : list string :=
  match tr with
  | [] => []
  | EvLibraryClose path :: rest => path :: closed_libraries rest
  | _ :: rest => closed_libraries rest
  end.

Fixpoint negotiated_libraries (tr : list Event) : list string :=
  match tr with
  | [] => []
  | EvNegotiate path :: rest => path :: negotiated_libraries rest
  | _ :: rest => negotiated_libraries rest
  end.

(** The candidate's negotiation function is there to be called: the
    library opens, a forwarded initialisation does not fail, and the
    library exports the function under the name the manifest gives. *)
Definition reaches_negotiation (build : LoaderBuild) (plat : Platform)
    (manifest_file : RuntimeManifestFile) : bool :=
  match LoaderPlatformLibraryOpen plat (LibraryPath manifest_file) with
  | None => false
  | Some lib =>
      match forward_initialize build manifest_file lib with
      | Some res => XR_SUCCEEDED res
      | None => true
      end
      && match proc_negotiate lib
                 (GetFunctionName manifest_file "xrNegotiateLoaderRuntimeInterface") with
         | Some _ => true
         | None => false
         end
  end.

(** No forwarded initialisation of the candidate fails. *)
Definition initialize_passes (build : LoaderBuild) (plat : Platform)
    (manifest_file : RuntimeManifestFile) : bool :=
  match LoaderPlatformLibraryOpen plat (LibraryPath manifest_file) with
  | None => true
  | Some lib =>
      match forward_initialize build manifest_file lib with
      | Some res => XR_SUCCEEDED res
      | None => true
      end
  end.

(** The library that the process holds through its session. *)
Definition held_library (w : World) : list string :=
  match w_instance w with
  | Some self => [_runtime_library self]
  | None => []
  end.

(** ** The cache against the calls *)

(** A handle is kept after [calls]: some [CreateInstance] that succeeded
    handed it out and no later [DestroyInstance] took it back, where a
    [DestroyInstance] of the null handle takes nothing back. *)
Definition kept (calls : list InstanceCall) (h : XrInstance) : Prop :=
  exists pre res post,
    calls = pre ++ CallCreateInstance (res, h) :: post /\
    XR_SUCCEEDED res = true /\
    (h <> XR_NULL_HANDLE -> ~ In (CallDestroyInstance h) post).

(** "GetDispatchTable(h) returns non-null iff h is a handle currently
    live (created and not yet destroyed)." *)
Definition cache_matches_live (self : RuntimeInterface) (calls : list InstanceCall)
    (h : XrInstance) : Prop :=
  GetDispatchTable (fst (run_calls calls (self, []))) h <> None <-> live calls h.

(** "ForgetDebugMessenger(m) followed by
    GetDebugUtilsMessengerDispatchTable(m) returns null", for a cache with
    no entry for the null instance. *)
Definition forgotten_messenger_gets_null (self : RuntimeInterface)
    (messenger : XrDebugUtilsMessengerEXT) : Prop :=
  _dispatch_table_map self !! XR_NULL_HANDLE = None ->
  GetDebugUtilsMessengerDispatchTable (ForgetDebugMessenger messenger self) messenger = None.

(** ** Sample builds, runtimes and platforms *)

Definition desktop_build : LoaderBuild :=
  {| XR_KHR_LOADER_INIT_SUPPORT := false;
     XR_CURRENT_LOADER_RUNTIME_VERSION := 1;
     XR_CURRENT_API_VERSION := XR_MAKE_VERSION 1 0 14 |}.

Definition android_build : LoaderBuild :=
  {| XR_KHR_LOADER_INIT_SUPPORT := true;
     XR_CURRENT_LOADER_RUNTIME_VERSION := 1;
     XR_CURRENT_API_VERSION := XR_MAKE_VERSION 1 0 14 |}.

Definition sample_procs : RuntimeProcs :=
  {| rt_xrEnumerateInstanceExtensionProperties :=
       [ {| extensionName := "B"; extensionVersion := 2 |};
         {| extensionName := "C"; extensionVersion := 1 |} ];
     rt_resolves_all := fun _ => true |}.

(** A runtime whose instance-scoped resolver misses a name. *)
Definition partial_procs : RuntimeProcs :=
  {| rt_xrEnumerateInstanceExtensionProperties := [];
     rt_resolves_all := fun _ => false |}.

(** A runtime that lists one name twice. *)
Definition repeating_procs : RuntimeProcs :=
  {| rt_xrEnumerateInstanceExtensionProperties :=
       [ {| extensionName := "C"; extensionVersion := 1 |};
         {| extensionName := "C"; extensionVersion := 2 |} ];
     rt_resolves_all := fun _ => true |}.

Definition sample_manifest (path : string) : RuntimeManifestFile :=
  {| Filename := path; LibraryPath := path; GetFunctionName := fun name => name |}.

Definition answer_with (res : XrResult) (runtime_info : XrNegotiateRuntimeRequest)
    : string -> option (XrNegotiateLoaderInfo -> XrNegotiateRuntimeRequest ->
                        XrResult * XrNegotiateRuntimeRequest) :=
  fun name =>
    if String.eqb name "xrNegotiateLoaderRuntimeInterface"
    then Some (fun _ _ => (res, runtime_info))
    else None.

Definition good_runtime_info : XrNegotiateRuntimeRequest :=
  {| runtimeInterfaceVersion := 1;
     runtimeApiVersion := XR_MAKE_VERSION 1 0 9;
     getInstanceProcAddr := Some sample_procs |}.

(** Negotiates as it should. *)
Definition good_library : RuntimeLibrary :=
  {| proc_initialize := fun _ => None;
     proc_negotiate := answer_with XR_SUCCESS good_runtime_info |}.

(** Reports success and hands back no getter. *)
Definition null_getter_library : RuntimeLibrary :=
  {| proc_initialize := fun _ => None;
     proc_negotiate := answer_with XR_SUCCESS runtime_info_zero |}.

(** Exports an [xrInitializeLoaderKHR] that fails. *)
Definition failing_init_library : RuntimeLibrary :=
  {| proc_initialize := fun name =>
       if String.eqb name "xrInitializeLoaderKHR" then Some XR_ERROR_RUNTIME_FAILURE else None;
     proc_negotiate := answer_with XR_SUCCESS good_runtime_info |}.

(** Exports nothing. *)
Definition library_without_negotiate : RuntimeLibrary :=
  {| proc_initialize := fun _ => None; proc_negotiate := fun _ => None |}.

Definition platform_of (libs : list (string * RuntimeLibrary)) : Platform :=
  {| LoaderPlatformLibraryOpen := fun path =>
       option_map snd (List.find (fun entry => String.eqb (fst entry) path) libs);
     FindManifestFiles := (XR_SUCCESS, map (fun entry => sample_manifest (fst entry)) libs) |}.

Definition two_good_runtimes : Platform :=
  platform_of [("a.so", good_library); ("b.so", good_library)].

Definition one_rejected_runtime : Platform :=
  platform_of [("a.so", null_getter_library)].

Definition good_then_failing_init : Platform :=
  platform_of [("a.so", good_library); ("b.so", failing_init_library)].

Definition sample_calls : list InstanceCall :=
  [ CallCreateInstance (XR_SUCCESS, 7); CallCreateInstance (XR_SUCCESS, 8);
    CallDestroyInstance 7; CallCreateInstance (XR_ERROR_RUNTIME_FAILURE, 9) ].

Definition sample_session : RuntimeInterface :=
  {| _runtime_library := "a.so";
     _get_instance_proc_addr := sample_procs;
     _dispatch_table_map := {[ 7 := GeneratedXrPopulateDispatchTable 7 sample_procs ]};
     _messenger_to_instance_map := {[ 5 := 7 ]};
     _supported_extensions := ["B"; "C"] |}.

Definition sample_world : World :=
  {| w_instance := Some sample_session; w_initialized := true; w_trace := [] |}.

(** A manifest search that fails after it found a manifest. *)
Definition failed_search : Platform :=
  {| LoaderPlatformLibraryOpen := fun _ => Some good_library;
     FindManifestFiles := (XR_ERROR_RUNTIME_FAILURE, [sample_manifest "a.so"]) |}.

Definition android_init_info : XrLoaderInitInfoAndroidKHR :=
  {| type := XR_TYPE_LOADER_INIT_INFO_ANDROID_KHR; next := 4096;
     applicationVM := 8192; applicationContext := 12288 |}.

Definition init_info_without_vm : XrLoaderInitInfoAndroidKHR :=
  {| type := XR_TYPE_LOADER_INIT_INFO_ANDROID_KHR; next := 0;
     applicationVM := nullptr; applicationContext := 12288 |}.

(** A runtime that hands out the null handle, and the null handle
    destroyed. *)
Definition null_instance_calls : list InstanceCall :=
  [ CallCreateInstance (XR_SUCCESS, XR_NULL_HANDLE); CallDestroyInstance XR_NULL_HANDLE ].

(** The sample session with the null messenger tracked to instance 7. *)
Definition null_messenger_session : RuntimeInterface :=
  snd (TrackDebugMessenger 7 XR_NULL_HANDLE sample_session).

(** * Properties *)

Local Ltac unfold_codes :=
  unfold XR_SUCCEEDED, XR_FAILED, XR_SUCCESS, XR_ERROR_FILE_CONTENTS_INVALID,
    XR_ERROR_INSTANCE_LOST, XR_ERROR_RUNTIME_FAILURE, XR_ERROR_FILE_ACCESS_ERROR,
    XR_ERROR_INITIALIZATION_FAILED, XR_NULL_HANDLE in *.

(** ** Results *)

Lemma XR_FAILED_not_SUCCEEDED (res : XrResult) : XR_FAILED res = negb (XR_SUCCEEDED res).
Proof. unfold_codes. destruct (Z.ltb_spec res 0), (Z.leb_spec 0 res); simpl; auto; lia. Qed.

(** ** The negotiation gate *)

Lemma check_negotiation_failed_passes build res runtime_info :
  XR_SUCCEEDED res = false -> check_negotiation build res runtime_info = res.
Proof. unfold check_negotiation. now intros ->. Qed.

(** The chain of checks as one boolean. *)
Lemma check_negotiation_succeeded build res runtime_info :
  XR_SUCCEEDED res = true ->
  check_negotiation build res runtime_info =
    if match getInstanceProcAddr runtime_info with Some _ => false | None => true end
       || (0 >=? runtimeInterfaceVersion runtime_info)
       || (XR_CURRENT_LOADER_RUNTIME_VERSION build <? runtimeInterfaceVersion runtime_info)
       || negb (XR_VERSION_MAJOR (runtimeApiVersion runtime_info)
                  =? XR_VERSION_MAJOR (XR_CURRENT_API_VERSION build))
       || ((XR_VERSION_MAJOR (runtimeApiVersion runtime_info) =? 0)
           && (XR_VERSION_MINOR (runtimeApiVersion runtime_info) =? 0))
    then XR_ERROR_FILE_CONTENTS_INVALID else res.
Proof.
  intros Hs. unfold check_negotiation. rewrite Hs. cbv zeta.
  generalize (XR_VERSION_MAJOR (runtimeApiVersion runtime_info)) as major.
  generalize (XR_VERSION_MINOR (runtimeApiVersion runtime_info)) as minor.
  generalize (XR_VERSION_MAJOR (XR_CURRENT_API_VERSION build)) as loader_major.
  intros loader_major minor major.
  destruct (getInstanceProcAddr runtime_info); [|reflexivity].
  rewrite orb_false_l.
  destruct (0 >=? runtimeInterfaceVersion runtime_info); [reflexivity|].
  rewrite orb_false_l.
  destruct (XR_CURRENT_LOADER_RUNTIME_VERSION build <? runtimeInterfaceVersion runtime_info);
    [reflexivity|].
  rewrite !orb_false_l. reflexivity.
Qed.

(** C5: a negotiation answer that reports success is rejected with
    FileContentsInvalid exactly when the getter is null, or the interface
    version is at most 0 or above the loader's, or the API major version is
    not the loader's, or the API version is the 0.0 sentinel; every other
    successful answer keeps its code and is accepted. *)
Theorem negotiation_gate (build : LoaderBuild) (res : XrResult)
    (runtime_info : XrNegotiateRuntimeRequest) :
  XR_SUCCEEDED res = true ->
  (check_negotiation build res runtime_info = XR_ERROR_FILE_CONTENTS_INVALID <->
     getInstanceProcAddr runtime_info = None \/
     (runtimeInterfaceVersion runtime_info <= 0 \/
      XR_CURRENT_LOADER_RUNTIME_VERSION build < runtimeInterfaceVersion runtime_info) \/
     XR_VERSION_MAJOR (runtimeApiVersion runtime_info)
       <> XR_VERSION_MAJOR (XR_CURRENT_API_VERSION build) \/
     (XR_VERSION_MAJOR (runtimeApiVersion runtime_info) = 0 /\
      XR_VERSION_MINOR (runtimeApiVersion runtime_info) = 0)) /\
  (check_negotiation build res runtime_info <> XR_ERROR_FILE_CONTENTS_INVALID ->
     check_negotiation build res runtime_info = res /\
     XR_FAILED (check_negotiation build res runtime_info) = false).
Proof.
  intros Hs.
  assert (Hne : res <> XR_ERROR_FILE_CONTENTS_INVALID).
  { intros ->. unfold XR_SUCCEEDED, XR_ERROR_FILE_CONTENTS_INVALID in Hs.
    apply Z.leb_le in Hs. lia. }
  rewrite (check_negotiation_succeeded build res runtime_info Hs).
  generalize (XR_VERSION_MAJOR (runtimeApiVersion runtime_info)) as major.
  generalize (XR_VERSION_MINOR (runtimeApiVersion runtime_info)) as minor.
  generalize (XR_VERSION_MAJOR (XR_CURRENT_API_VERSION build)) as loader_major.
  intros loader_major minor major.
  match goal with |- context [if ?b then _ else _] => destruct b eqn:Hb end.
  - split; [|intros H; now contradiction H].
    split; [intros _|reflexivity].
    rewrite !orb_true_iff in Hb.
    destruct Hb as [[[[Hb|Hb]|Hb]|Hb]|Hb].
    + left. now destruct (getInstanceProcAddr runtime_info).
    + right; left; left. apply Z.geb_le in Hb. lia.
    + right; left; right. now apply Z.ltb_lt in Hb.
    + right; right; left. apply negb_true_iff, Z.eqb_neq in Hb. exact Hb.
    + right; right; right. apply andb_true_iff in Hb as [H0 H1].
      split; now apply Z.eqb_eq.
  - split.
    + split; [intros H; now contradiction Hne|].
      rewrite !orb_false_iff in Hb.
      destruct Hb as [[[[Hg Hi] Hm] Hj] Hz].
      intros [H|[[H|H]|[H|[H0 H1]]]]; exfalso.
      * rewrite H in Hg. discriminate.
      * apply Z.geb_le in H. congruence.
      * apply Z.ltb_lt in H. congruence.
      * apply negb_false_iff, Z.eqb_eq in Hj. contradiction.
      * apply Z.eqb_eq in H0, H1. rewrite H0, H1 in Hz. discriminate.
    + intros _. split; auto. rewrite XR_FAILED_not_SUCCEEDED, Hs. reflexivity.
Qed.

Lemma negotiation_gate_witness :
  XR_SUCCEEDED XR_SUCCESS = true /\
  check_negotiation desktop_build XR_SUCCESS good_runtime_info = XR_SUCCESS /\
  check_negotiation desktop_build XR_SUCCESS runtime_info_zero = XR_ERROR_FILE_CONTENTS_INVALID.
Proof.
  split; [reflexivity|].
  split.
  - apply (negotiation_gate desktop_build XR_SUCCESS good_runtime_info); [reflexivity|].
    vm_compute. discriminate.
  - apply (negotiation_gate desktop_build XR_SUCCESS runtime_info_zero); [reflexivity|].
    left. reflexivity.
Defined.

(** The cases of the specification on a loader of API major version 1:
    major version 2, interface version 0, and no getter. *)
Example gate_rejects_major_2 :
  check_negotiation desktop_build XR_SUCCESS
    {| runtimeInterfaceVersion := 1; runtimeApiVersion := XR_MAKE_VERSION 2 0 0;
       getInstanceProcAddr := Some sample_procs |}
  = XR_ERROR_FILE_CONTENTS_INVALID.
Proof. reflexivity. Qed.

Example gate_rejects_interface_0 :
  check_negotiation desktop_build XR_SUCCESS
    {| runtimeInterfaceVersion := 0; runtimeApiVersion := XR_MAKE_VERSION 1 0 9;
       getInstanceProcAddr := Some sample_procs |}
  = XR_ERROR_FILE_CONTENTS_INVALID.
Proof. reflexivity. Qed.

Example gate_rejects_null_getter :
  check_negotiation desktop_build XR_SUCCESS
    {| runtimeInterfaceVersion := 1; runtimeApiVersion := XR_MAKE_VERSION 1 0 9;
       getInstanceProcAddr := None |}
  = XR_ERROR_FILE_CONTENTS_INVALID.
Proof. reflexivity. Qed.

(** A failure of the negotiation function itself passes through. *)
Example gate_keeps_failure :
  check_negotiation desktop_build XR_ERROR_RUNTIME_FAILURE good_runtime_info
  = XR_ERROR_RUNTIME_FAILURE.
Proof. reflexivity. Qed.

(** ** Loading when a session is bound *)

(** C6: when a session is bound, LoadRuntime returns Success and leaves the
    process as it was: the session is the same and the trace has no new
    call, so neither the manifest search nor the library loader was used. *)
Theorem LoadRuntime_idempotent (build : LoaderBuild) (plat : Platform) (w : World)
    (self : RuntimeInterface) :
  w_instance w = Some self ->
  LoadRuntime build plat w = (XR_SUCCESS, w).
Proof. intros Hbound. unfold LoadRuntime. now rewrite Hbound. Qed.

Lemma LoadRuntime_idempotent_witness :
  w_instance sample_world = Some sample_session /\
  LoadRuntime desktop_build two_good_runtimes sample_world = (XR_SUCCESS, sample_world).
Proof.
  split; [reflexivity|].
  apply (LoadRuntime_idempotent desktop_build two_good_runtimes sample_world sample_session).
  reflexivity.
Defined.

(** A load that bound a session, then a second load. *)
Lemma LoadRuntime_twice build plat w :
  is_Some (w_instance (snd (LoadRuntime build plat w))) ->
  LoadRuntime build plat (snd (LoadRuntime build plat w))
    = (XR_SUCCESS, snd (LoadRuntime build plat w)).
Proof. intros [s Hs]. unfold LoadRuntime at 1. now rewrite Hs. Qed.

(** ** Destroying an instance *)

Lemma DestroyInstance_result instance self tr :
  fst (DestroyInstance instance self tr) = XR_SUCCESS.
Proof. unfold DestroyInstance. now destruct (negb (XR_NULL_HANDLE =? instance)). Qed.

Lemma DestroyInstance_lookup instance self tr h :
  _dispatch_table_map (fst (snd (DestroyInstance instance self tr))) !! h =
    if decide (instance <> XR_NULL_HANDLE /\ instance = h) then None
    else _dispatch_table_map self !! h.
Proof.
  unfold DestroyInstance.
  destruct (Z.eqb_spec XR_NULL_HANDLE instance) as [Hn|Hn]; simpl.
  - case_decide as Hd; [destruct Hd as [Hd _]; congruence|reflexivity].
  - destruct (_dispatch_table_map self !! instance) eqn:Hl; simpl.
    + rewrite lookup_delete. repeat case_decide; try reflexivity; try tauto.
      exfalso. apply H0. split; congruence.
    + case_decide as Hd; [destruct Hd as [_ <-]; now rewrite Hl|reflexivity].
Qed.

(** C10: DestroyInstance on the null handle returns Success and changes
    nothing, the cache and the trace are the same, so the runtime's destroy
    entry point is not called; on any other handle the runtime's destroy is
    called, whether the cache had an entry or not. *)
Theorem DestroyInstance_null_is_noop (self : RuntimeInterface) (tr : list Event) :
  DestroyInstance XR_NULL_HANDLE self tr = (XR_SUCCESS, (self, tr)) /\
  forall instance, instance <> XR_NULL_HANDLE ->
    fst (DestroyInstance instance self tr) = XR_SUCCESS /\
    snd (snd (DestroyInstance instance self tr)) = tr ++ [EvDestroyInstance instance].
Proof.
  split; [reflexivity|].
  intros instance Hnn. unfold DestroyInstance.
  destruct (Z.eqb_spec XR_NULL_HANDLE instance) as [Hn|Hn]; [congruence|].
  split; reflexivity.
Qed.

Lemma DestroyInstance_null_is_noop_witness :
  DestroyInstance XR_NULL_HANDLE sample_session [] = (XR_SUCCESS, (sample_session, [])) /\
  snd (snd (DestroyInstance 7 sample_session [])) = [EvDestroyInstance 7] /\
  snd (snd (DestroyInstance 8 sample_session [])) = [EvDestroyInstance 8].
Proof.
  destruct (DestroyInstance_null_is_noop sample_session []) as [Hnull Hother].
  split; [exact Hnull|].
  split; apply Hother; discriminate.
Defined.

(** ** Messengers *)

Lemma ForgetDebugMessenger_dispatch_table_map messenger self :
  _dispatch_table_map (ForgetDebugMessenger messenger self) = _dispatch_table_map self.
Proof. unfold ForgetDebugMessenger. now destruct (negb (XR_NULL_HANDLE =? messenger)). Qed.

Lemma ForgetDebugMessenger_lookup messenger self :
  messenger <> XR_NULL_HANDLE ->
  _messenger_to_instance_map (ForgetDebugMessenger messenger self) !! messenger = None.
Proof.
  intros Hnn. unfold ForgetDebugMessenger.
  destruct (Z.eqb_spec XR_NULL_HANDLE messenger) as [Hn|Hn]; [congruence|].
  simpl. apply lookup_delete_eq.
Qed.

Lemma unmapped_messenger_has_no_table self messenger :
  _dispatch_table_map self !! XR_NULL_HANDLE = None ->
  _messenger_to_instance_map self !! messenger = None ->
  messenger_instance self messenger = XR_NULL_HANDLE /\
  GetDebugUtilsMessengerDispatchTable self messenger = None.
Proof.
  intros Hnull Hm.
  unfold GetDebugUtilsMessengerDispatchTable, GetDispatchTable, messenger_instance.
  rewrite Hm, Hnull. split; reflexivity.
Qed.

(** C9, as the code has it: when the cache has no entry for the null
    instance, a messenger that the registry does not have resolves to the
    null instance and gets no table; ForgetDebugMessenger makes a non-null
    messenger such a messenger, and on the null messenger it does nothing. *)
Theorem messenger_orphan_lookup (self : RuntimeInterface)
    (messenger : XrDebugUtilsMessengerEXT) :
  _dispatch_table_map self !! XR_NULL_HANDLE = None ->
  (_messenger_to_instance_map self !! messenger = None ->
     messenger_instance self messenger = XR_NULL_HANDLE /\
     GetDebugUtilsMessengerDispatchTable self messenger = None) /\
  (messenger <> XR_NULL_HANDLE ->
     let self' := ForgetDebugMessenger messenger self in
     _messenger_to_instance_map self' !! messenger = None /\
     messenger_instance self' messenger = XR_NULL_HANDLE /\
     GetDebugUtilsMessengerDispatchTable self' messenger = None) /\
  ForgetDebugMessenger XR_NULL_HANDLE self = self.
Proof.
  intros Hnull. split; [|split].
  - now apply unmapped_messenger_has_no_table.
  - intros Hnn self'.
    assert (Hm := ForgetDebugMessenger_lookup messenger self Hnn).
    split; [exact Hm|].
    apply unmapped_messenger_has_no_table; [|exact Hm].
    subst self'. now rewrite ForgetDebugMessenger_dispatch_table_map.
  - reflexivity.
Qed.

Lemma messenger_orphan_lookup_witness :
  _dispatch_table_map sample_session !! XR_NULL_HANDLE = None /\
  GetDebugUtilsMessengerDispatchTable sample_session 5
    = Some (GeneratedXrPopulateDispatchTable 7 sample_procs) /\
  GetDebugUtilsMessengerDispatchTable sample_session 6 = None /\
  GetDebugUtilsMessengerDispatchTable (ForgetDebugMessenger 5 sample_session) 5 = None.
Proof.
  assert (Hnull : _dispatch_table_map sample_session !! XR_NULL_HANDLE = None)
    by reflexivity.
  split; [exact Hnull|].
  split; [reflexivity|].
  split.
  - destruct (messenger_orphan_lookup sample_session 6 Hnull) as (Hunmapped & _ & _).
    apply Hunmapped. reflexivity.
  - destruct (messenger_orphan_lookup sample_session 5 Hnull) as (_ & Hforgotten & _).
    apply Hforgotten. unfold XR_NULL_HANDLE. lia.
Defined.

(** C9, as it is stated, fails on the null messenger: tracked to
    instance 7 and then forgotten, it still gets the table of instance 7,
    with no entry for the null instance in the cache. *)
Lemma forgotten_null_messenger_keeps_table :
  ~ forgotten_messenger_gets_null null_messenger_session XR_NULL_HANDLE.
Proof.
  unfold forgotten_messenger_gets_null. intros H.
  specialize (H eq_refl). vm_compute in H. discriminate H.
Qed.

Example forgotten_null_messenger_table :
  _messenger_to_instance_map (ForgetDebugMessenger XR_NULL_HANDLE null_messenger_session)
    !! XR_NULL_HANDLE = Some 7 /\
  GetDebugUtilsMessengerDispatchTable
    (ForgetDebugMessenger XR_NULL_HANDLE null_messenger_session) XR_NULL_HANDLE
  = Some (GeneratedXrPopulateDispatchTable 7 sample_procs).
Proof. split; reflexivity. Qed.

(** ** Merging the extension lists *)

Section Merge.
Implicit Types (c x rt : list XrExtensionProperties) (e p : XrExtensionProperties).

Lemma strcmp_eq_true a b : strcmp_eq a b = true <-> a = b.
Proof. apply String.eqb_eq. Qed.

Lemma scan_props_spec c x e :
  scan_props (length c) (c ++ x) e = (has_name (extensionName e) c, overwrite e c ++ x).
Proof.
  unfold overwrite. induction c as [|p c IH]; simpl.
  - now destruct x.
  - destruct (strcmp_eq (extensionName p) (extensionName e)); simpl; [reflexivity|].
    rewrite IH. now destruct (scan_props (length c) c e).
Qed.

Lemma overwrite_nil e : overwrite e [] = [].
Proof. reflexivity. Qed.

Lemma overwrite_cons e p c :
  overwrite e (p :: c) =
    if strcmp_eq (extensionName p) (extensionName e)
    then {| extensionName := extensionName p; extensionVersion := extensionVersion e |} :: c
    else p :: overwrite e c.
Proof.
  unfold overwrite. simpl.
  destruct (strcmp_eq (extensionName p) (extensionName e)); [reflexivity|].
  now destruct (scan_props (length c) c e).
Qed.

Lemma overwrite_names e c : map extensionName (overwrite e c) = map extensionName c.
Proof.
  induction c as [|p c IH]; [reflexivity|].
  rewrite overwrite_cons.
  destruct (strcmp_eq (extensionName p) (extensionName e)); simpl; [reflexivity|].
  now rewrite IH.
Qed.

Lemma overwrite_length e c : length (overwrite e c) = length c.
Proof. rewrite <- (length_map extensionName), overwrite_names. apply length_map. Qed.

Lemma overwrite_absent e c : has_name (extensionName e) c = false -> overwrite e c = c.
Proof.
  induction c as [|p c IH]; [reflexivity|].
  rewrite overwrite_cons. simpl.
  destruct (strcmp_eq (extensionName p) (extensionName e)); simpl; [discriminate|].
  intros H. now rewrite IH.
Qed.

Lemma has_name_names name c c' :
  map extensionName c = map extensionName c' -> has_name name c = has_name name c'.
Proof.
  revert c'. induction c as [|p c IH]; intros [|p' c'] H; try discriminate; [reflexivity|].
  simpl in *. injection H as Hp Hc. now rewrite Hp, (IH c' Hc).
Qed.

Lemma find_first_names name c c' :
  map extensionName c = map extensionName c' -> find_first name c = find_first name c'.
Proof.
  revert c'. induction c as [|p c IH]; intros [|p' c'] H; try discriminate; [reflexivity|].
  simpl in *. injection H as Hp Hc. now rewrite Hp, (IH c' Hc).
Qed.

Lemma overwrite_all_names rt c :
  map extensionName (overwrite_all rt c) = map extensionName c.
Proof.
  revert c. induction rt as [|e rt IH]; intros c; [reflexivity|].
  simpl. now rewrite IH, overwrite_names.
Qed.

Lemma overwrite_all_length rt c : length (overwrite_all rt c) = length c.
Proof. rewrite <- (length_map extensionName), overwrite_all_names. apply length_map. Qed.

(** The two loops in closed form: the candidates with their versions
    overwritten, what was behind them, and the runtime's own entries. *)
Lemma merge_runtime_extensions_spec rt c x :
  merge_runtime_extensions (length c) rt (c ++ x) =
    overwrite_all rt c ++ x ++ runtime_only c rt.
Proof.
  revert c x. induction rt as [|e rt IH]; intros c x.
  - simpl. now rewrite app_nil_r.
  - simpl. rewrite scan_props_spec. unfold runtime_only. simpl.
    destruct (has_name (extensionName e) c) eqn:Hn; simpl.
    + rewrite <- (overwrite_length e c), IH. unfold runtime_only.
      do 2 f_equal. apply filter_ext. intros a.
      now rewrite (has_name_names _ _ _ (overwrite_names e c)).
    + rewrite (overwrite_absent e c Hn), <- app_assoc, IH.
      unfold runtime_only. now rewrite <- app_assoc.
Qed.

Lemma enumerate_two_call_list gipa :
  fst (enumerate_two_call gipa) = rt_xrEnumerateInstanceExtensionProperties gipa.
Proof.
  unfold enumerate_two_call.
  destruct (rt_xrEnumerateInstanceExtensionProperties gipa) as [|e l] eqn:He;
    [reflexivity|].
  change (0 <? length (e :: l))%nat with true. cbv iota. cbn [fst].
  apply firstn_all.
Qed.

Lemma GetInstanceExtensionProperties_spec self c :
  fst (GetInstanceExtensionProperties self c) =
    let rt := rt_xrEnumerateInstanceExtensionProperties (_get_instance_proc_addr self) in
    overwrite_all rt c ++ runtime_only c rt.
Proof.
  unfold GetInstanceExtensionProperties.
  pose proof (enumerate_two_call_list (_get_instance_proc_addr self)) as Hl.
  destruct (enumerate_two_call (_get_instance_proc_addr self)) as [l evs].
  simpl in Hl. subst l. simpl.
  rewrite <- (app_nil_r c) at 2. now rewrite merge_runtime_extensions_spec.
Qed.

Lemma find_first_lookup name c i :
  find_first name c = Some i -> exists p, c !! i = Some p /\ extensionName p = name.
Proof.
  revert i. induction c as [|q c IH]; intros i; simpl; [discriminate|].
  destruct (strcmp_eq (extensionName q) name) eqn:Hq.
  - intros [= <-]. exists q. split; [reflexivity|]. now apply strcmp_eq_true.
  - destruct (find_first name c) as [j|]; simpl; [|discriminate].
    intros [= <-]. apply (IH j eq_refl).
Qed.

Lemma find_first_None name c : find_first name c = None <-> has_name name c = false.
Proof.
  induction c as [|q c IH]; simpl; [tauto|].
  destruct (strcmp_eq (extensionName q) name); simpl; [split; discriminate|].
  rewrite <- IH. destruct (find_first name c); simpl; split; congruence.
Qed.

Lemma overwrite_lookup e c i :
  overwrite e c !! i =
    if decide (find_first (extensionName e) c = Some i)
    then (fun p => {| extensionName := extensionName p;
                      extensionVersion := extensionVersion e |}) <$> c !! i
    else c !! i.
Proof.
  revert i. induction c as [|q c IH]; intros i.
  - unfold overwrite. simpl. now destruct (decide (None = Some i)).
  - rewrite overwrite_cons. simpl.
    destruct (strcmp_eq (extensionName q) (extensionName e)).
    + case_decide as Hd.
      * injection Hd as <-. reflexivity.
      * destruct i as [|j]; [congruence|reflexivity].
    + case_decide as Hd.
      * destruct (find_first (extensionName e) c) as [k|] eqn:Hk; [|discriminate].
        injection Hd as <-. simpl. rewrite IH. now rewrite decide_True.
      * destruct i as [|j]; [reflexivity|].
        simpl. rewrite IH. case_decide as Hj; [|reflexivity].
        rewrite Hj in Hd. now contradiction Hd.
Qed.

Lemma reported_version_cons name e rt :
  reported_version name (e :: rt) =
    match reported_version name rt with
    | Some v => Some v
    | None => if strcmp_eq (extensionName e) name then Some (extensionVersion e) else None
    end.
Proof.
  unfold reported_version. simpl.
  destruct (strcmp_eq (extensionName e) name); [|now destruct (last _)].
  rewrite last_cons. now destruct (last _).
Qed.

Lemma reported_version_absent name rt :
  has_name name rt = false -> reported_version name rt = None.
Proof.
  induction rt as [|e rt IH]; [reflexivity|].
  simpl. rewrite reported_version_cons.
  destruct (strcmp_eq (extensionName e) name); simpl; [discriminate|].
  intros H. now rewrite IH.
Qed.

Lemma reported_version_present name rt :
  has_name name rt = true -> exists v, reported_version name rt = Some v.
Proof.
  induction rt as [|e rt IH]; [discriminate|].
  simpl. rewrite reported_version_cons. intros H.
  destruct (reported_version name rt) as [v|]; [now exists v|].
  destruct (strcmp_eq (extensionName e) name); simpl in H; [eauto|].
  destruct (IH H) as [v Hv]. discriminate.
Qed.

Lemma In_has_name e rt : In e rt -> has_name (extensionName e) rt = true.
Proof.
  intros H. apply existsb_exists. exists e. split; [exact H|]. now apply strcmp_eq_true.
Qed.

(** The candidate at index [i] after the merge: the first entry with
    its name takes the version the runtime reports, if it reports one. *)
Lemma overwrite_all_lookup rt c i p :
  c !! i = Some p ->
  overwrite_all rt c !! i =
    Some (if decide (find_first (extensionName p) c = Some i)
          then {| extensionName := extensionName p;
                  extensionVersion :=
                    default (extensionVersion p) (reported_version (extensionName p) rt) |}
          else p).
Proof.
  revert c p. induction rt as [|e rt IH]; intros c p Hp.
  - simpl. rewrite Hp. destruct p. now case_decide.
  - simpl. rewrite reported_version_cons.
    pose proof (overwrite_lookup e c i) as Ho. rewrite Hp in Ho. simpl in Ho.
    assert (Hff : find_first (extensionName p) (overwrite e c)
                  = find_first (extensionName p) c)
      by apply find_first_names, overwrite_names.
    destruct (decide (find_first (extensionName e) c = Some i)) as [He|He].
    + destruct (find_first_lookup _ _ _ He) as (q & Hq & Hname).
      rewrite Hp in Hq. injection Hq as <-.
      rewrite (IH _ _ Ho). simpl. rewrite Hff. rewrite <- Hname in *. rewrite He.
      assert (Hrefl : strcmp_eq (extensionName p) (extensionName p) = true)
        by now apply strcmp_eq_true.
      rewrite Hrefl, !decide_True by reflexivity.
      now destruct (reported_version (extensionName p) rt).
    + rewrite (IH _ _ Ho), Hff.
      case_decide as Hd; [|reflexivity].
      destruct (strcmp_eq (extensionName e) (extensionName p)) eqn:Hs;
        [|now destruct (reported_version (extensionName p) rt)].
      apply strcmp_eq_true in Hs. rewrite Hs in He. contradiction.
Qed.

Lemma reported_version_NoDup e rt :
  NoDup (map extensionName rt) -> In e rt ->
  reported_version (extensionName e) rt = Some (extensionVersion e).
Proof.
  induction rt as [|e0 rt IH]; [intros _ []|].
  simpl. intros Hnd Hin. apply NoDup_cons in Hnd as [Hfresh Hnd].
  rewrite reported_version_cons.
  destruct Hin as [<-|Hin].
  - rewrite reported_version_absent.
    + assert (H : strcmp_eq (extensionName e0) (extensionName e0) = true)
        by now apply strcmp_eq_true.
      now rewrite H.
    + apply not_true_is_false. intros H. apply Hfresh.
      apply existsb_exists in H as (q & Hq & Hn). apply strcmp_eq_true in Hn.
      rewrite <- Hn. apply list_elem_of_In. now apply in_map.
  - now rewrite (IH Hnd Hin).
Qed.
End Merge.

(** C7: after the merge the candidates stand where they stood, under
    their names; behind them come the runtime's entries that no candidate
    names, in the runtime's order; a candidate whose name the runtime does
    not report is as it was supplied; and for each entry the runtime
    reports under a candidate's name, the first candidate of that name
    carries the runtime's version. *)
Theorem extension_reconciliation (self : RuntimeInterface)
    (candidates : list XrExtensionProperties) :
  let rt := rt_xrEnumerateInstanceExtensionProperties (_get_instance_proc_addr self) in
  let merged := fst (GetInstanceExtensionProperties self candidates) in
  map extensionName (take (length candidates) merged) = map extensionName candidates /\
  drop (length candidates) merged = runtime_only candidates rt /\
  (forall i p, candidates !! i = Some p ->
     has_name (extensionName p) rt = false -> merged !! i = Some p) /\
  (forall e i p, In e rt ->
     find_first (extensionName e) candidates = Some i -> candidates !! i = Some p ->
     exists v, reported_version (extensionName e) rt = Some v /\
               (NoDup (map extensionName rt) -> v = extensionVersion e) /\
               merged !! i = Some {| extensionName := extensionName p;
                                     extensionVersion := v |}).
Proof.
  intros rt merged. subst merged. rewrite GetInstanceExtensionProperties_spec.
  cbv zeta. fold rt.
  assert (Hlen := overwrite_all_length rt candidates).
  assert (Hlookup : forall i p, candidates !! i = Some p ->
            (overwrite_all rt candidates ++ runtime_only candidates rt) !! i
            = overwrite_all rt candidates !! i).
  { intros i p Hp. apply lookup_app_l. rewrite Hlen. now apply lookup_lt_Some in Hp. }
  split; [|split; [|split]].
  - rewrite take_app_length' by now rewrite Hlen. apply overwrite_all_names.
  - now rewrite drop_app_length' by now rewrite Hlen.
  - intros i p Hp Habsent.
    rewrite (Hlookup i p Hp), (overwrite_all_lookup rt _ _ _ Hp).
    rewrite (reported_version_absent _ _ Habsent). simpl.
    destruct p. now case_decide.
  - intros e i p He Hfirst Hp.
    destruct (reported_version_present _ _ (In_has_name e rt He)) as [v Hv].
    exists v. split; [exact Hv|]. split.
    + intros Hnd. rewrite (reported_version_NoDup e rt Hnd He) in Hv. congruence.
    + destruct (find_first_lookup _ _ _ Hfirst) as (q & Hq & Hname).
      rewrite Hp in Hq. injection Hq as <-.
      rewrite (Hlookup i p Hp), (overwrite_all_lookup rt _ _ _ Hp).
      rewrite Hname, Hfirst, decide_True by reflexivity. now rewrite Hv.
Qed.

Lemma extension_reconciliation_witness :
  fst (GetInstanceExtensionProperties sample_session
         [ {| extensionName := "A"; extensionVersion := 1 |};
           {| extensionName := "B"; extensionVersion := 1 |} ]) !! 1%nat
  = Some {| extensionName := "B"; extensionVersion := 2 |}.
Proof.
  destruct (extension_reconciliation sample_session
              [ {| extensionName := "A"; extensionVersion := 1 |};
                {| extensionName := "B"; extensionVersion := 1 |} ])
    as (_ & _ & _ & Hreported).
  destruct (Hreported {| extensionName := "B"; extensionVersion := 2 |} 1%nat
              {| extensionName := "B"; extensionVersion := 1 |})
    as (v & Hv & _ & Hmerged).
  - simpl. left. reflexivity.
  - reflexivity.
  - reflexivity.
  - vm_compute in Hv. injection Hv as <-. exact Hmerged.
Defined.

(** The merge of the specification's example. *)
Example extension_merge_example :
  fst (GetInstanceExtensionProperties sample_session
         [ {| extensionName := "A"; extensionVersion := 1 |};
           {| extensionName := "B"; extensionVersion := 1 |} ])
  = [ {| extensionName := "A"; extensionVersion := 1 |};
      {| extensionName := "B"; extensionVersion := 2 |};
      {| extensionName := "C"; extensionVersion := 1 |} ].
Proof. reflexivity. Qed.

(** Names are compared as they are: a candidate that differs in case is
    not the runtime's extension, which is appended. *)
Example extension_merge_case_sensitive :
  fst (GetInstanceExtensionProperties sample_session
         [ {| extensionName := "b"; extensionVersion := 1 |} ])
  = [ {| extensionName := "b"; extensionVersion := 1 |};
      {| extensionName := "B"; extensionVersion := 2 |};
      {| extensionName := "C"; extensionVersion := 1 |} ].
Proof. reflexivity. Qed.

(** Of two candidates with one name only the first is matched. *)
Example extension_merge_repeated_candidate :
  fst (GetInstanceExtensionProperties sample_session
         [ {| extensionName := "B"; extensionVersion := 1 |};
           {| extensionName := "B"; extensionVersion := 1 |} ])
  = [ {| extensionName := "B"; extensionVersion := 2 |};
      {| extensionName := "B"; extensionVersion := 1 |};
      {| extensionName := "C"; extensionVersion := 1 |} ].
Proof. reflexivity. Qed.

(** ** The dispatch-table cache *)

Lemma failed_after_success (res : XrResult) : XR_FAILED res && XR_SUCCEEDED res = false.
Proof. rewrite XR_FAILED_not_SUCCEEDED. now destruct (XR_SUCCEEDED res). Qed.

(** [CreateInstance] in closed form: the branch that destroys the
    instance again needs a [res] that failed after it succeeded. *)
Lemma CreateInstance_spec res instance self tr :
  CreateInstance (res, instance) self tr =
    ((res, instance),
     (if XR_SUCCEEDED res
      then with_dispatch_table_map self
             (<[instance := GeneratedXrPopulateDispatchTable instance
                              (_get_instance_proc_addr self)]> (_dispatch_table_map self))
      else self,
      tr ++ [EvCreateInstance])).
Proof. unfold CreateInstance. now rewrite failed_after_success. Qed.

Lemma CreateInstance_lookup res instance self tr h :
  _dispatch_table_map (fst (snd (CreateInstance (res, instance) self tr))) !! h =
    if decide (XR_SUCCEEDED res = true /\ instance = h)
    then Some (GeneratedXrPopulateDispatchTable instance (_get_instance_proc_addr self))
    else _dispatch_table_map self !! h.
Proof.
  rewrite CreateInstance_spec. cbn [fst snd].
  destruct (XR_SUCCEEDED res).
  - unfold with_dispatch_table_map. cbn [_dispatch_table_map].
    rewrite lookup_insert.
    destruct (decide (instance = h)) as [Hi|Hi];
      destruct (decide (true = true /\ instance = h)) as [Hd|Hd];
      try reflexivity; exfalso; tauto.
  - destruct (decide (false = true /\ instance = h)) as [[Hd _]|_];
      [discriminate|reflexivity].
Qed.

Lemma run_calls_snoc calls c st :
  run_calls (calls ++ [c]) st = step_call (run_calls calls st) c.
Proof. unfold run_calls. now rewrite fold_left_app. Qed.

Lemma live_nil h : ~ live [] h.
Proof. intros (pre & res & post & H & _). now destruct pre. Qed.

Lemma live_snoc_create calls res h' h :
  live (calls ++ [CallCreateInstance (res, h')]) h <->
  (XR_SUCCEEDED res = true /\ h' = h) \/ live calls h.
Proof.
  split.
  - intros (pre & r & post & Heq & Hr & Hnd).
    destruct post as [|x post _] using rev_ind.
    + apply app_inj_tail in Heq as [_ [= -> ->]]. now left.
    + rewrite app_comm_cons, app_assoc in Heq. apply app_inj_tail in Heq as [-> <-].
      right. exists pre, r, post. repeat split; auto.
      intros Hin. apply Hnd, in_or_app. now left.
  - intros [[Hr <-]|(pre & r & post & -> & Hr & Hnd)].
    + exists calls, res, []. repeat split; auto.
    + exists pre, r, (post ++ [CallCreateInstance (res, h')]).
      rewrite <- app_assoc. repeat split; auto.
      intros Hin. apply in_app_or in Hin as [Hin|[Hin|[]]]; [auto|discriminate].
Qed.

Lemma live_snoc_destroy calls h' h :
  live (calls ++ [CallDestroyInstance h']) h <-> h' <> h /\ live calls h.
Proof.
  split.
  - intros (pre & r & post & Heq & Hr & Hnd).
    destruct post as [|x post _] using rev_ind.
    + apply app_inj_tail in Heq as [_ [=]].
    + rewrite app_comm_cons, app_assoc in Heq. apply app_inj_tail in Heq as [-> <-].
      split.
      * intros ->. apply Hnd, in_or_app. right. now left.
      * exists pre, r, post. repeat split; auto.
        intros Hin. apply Hnd, in_or_app. now left.
  - intros [Hne (pre & r & post & -> & Hr & Hnd)].
    exists pre, r, (post ++ [CallDestroyInstance h']).
    rewrite <- app_assoc. repeat split; auto.
    intros Hin. apply in_app_or in Hin as [Hin|[Hin|[]]]; [auto|congruence].
Qed.

Lemma live_created calls h :
  live calls h -> exists res, In (CallCreateInstance (res, h)) calls /\ XR_SUCCEEDED res = true.
Proof.
  intros (pre & r & post & -> & Hr & _). exists r. split; [|exact Hr].
  apply in_or_app. right. now left.
Qed.

Lemma runtime_conformant_snoc calls c :
  runtime_conformant (calls ++ [c]) -> runtime_conformant calls.
Proof. intros H res h Hin. apply H, in_or_app. now left. Qed.

Lemma GetDispatchTable_lookup self h : GetDispatchTable self h = _dispatch_table_map self !! h.
Proof. unfold GetDispatchTable. now destruct (_ !! h). Qed.

Lemma cache_tracks_live self calls h :
  _dispatch_table_map self = ∅ ->
  runtime_conformant calls \/ h <> XR_NULL_HANDLE ->
  (is_Some (_dispatch_table_map (fst (run_calls calls (self, []))) !! h) <-> live calls h).
Proof.
  intros Hempty. induction calls as [|c calls IH] using rev_ind; intros Hok.
  - simpl. rewrite Hempty, lookup_empty. split; [intros [? [=]]|intros H; now apply live_nil in H].
  - assert (Hok' : runtime_conformant calls \/ h <> XR_NULL_HANDLE).
    { destruct Hok as [Hc|Hn]; [left; now apply runtime_conformant_snoc in Hc|now right]. }
    specialize (IH Hok'). rewrite run_calls_snoc.
    destruct (run_calls calls (self, [])) as [self' tr'] eqn:Hrun. simpl in IH.
    destruct c as [[res h']|h']; cbn [step_call fst snd].
    + rewrite CreateInstance_lookup, live_snoc_create, <- IH.
      case_decide as Hd; [split; [now left|eauto]|].
      split; [now right|intros [Hc|Hl]; [contradiction|exact Hl]].
    + rewrite DestroyInstance_lookup, live_snoc_destroy, <- IH.
      case_decide as Hd.
      * split; [intros [? [=]]|]. intros [Hne _]. destruct Hd. contradiction.
      * split; [|now intros [_ Hl]].
        intros Hl. split; [|exact Hl]. intros ->. apply Hd. split; [|reflexivity].
        destruct Hok as [Hc|Hn]; [|exact Hn].
        apply IH in Hl. destruct (live_created _ _ Hl) as (res & Hin & Hr).
        apply (Hc res h); [|exact Hr]. apply in_or_app. now left.
Qed.

Lemma DestroyInstance_twice h self tr :
  let '(_, (self1, tr1)) := DestroyInstance h self tr in
  fst (snd (DestroyInstance h self1 tr1)) = self1.
Proof.
  pose proof (DestroyInstance_lookup h self tr h) as Hl.
  destruct (DestroyInstance h self tr) as [r [self1 tr1]]. simpl in Hl.
  unfold DestroyInstance.
  destruct (Z.eqb_spec XR_NULL_HANDLE h) as [Hn|Hn]; simpl; [reflexivity|].
  rewrite decide_True in Hl by (split; congruence). now rewrite Hl.
Qed.

(** With a runtime that keeps the contract, the null instance never gets
    a table. *)
Lemma conformant_cache_has_no_null_entry self calls :
  _dispatch_table_map self = ∅ ->
  runtime_conformant calls ->
  _dispatch_table_map (fst (run_calls calls (self, []))) !! XR_NULL_HANDLE = None.
Proof.
  intros Hempty Hc.
  destruct (_dispatch_table_map (fst (run_calls calls (self, []))) !! XR_NULL_HANDLE)
    as [t|] eqn:Hl; [exfalso|reflexivity].
  assert (Hlive : live calls XR_NULL_HANDLE).
  { apply (cache_tracks_live self calls XR_NULL_HANDLE Hempty (or_introl Hc)).
    rewrite Hl. eauto. }
  destruct (live_created _ _ Hlive) as (res & Hin & Hr).
  now apply (Hc res XR_NULL_HANDLE Hin Hr).
Qed.

Lemma kept_nil h : ~ kept [] h.
Proof. intros (pre & res & post & H & _). now destruct pre. Qed.

Lemma kept_snoc_create calls res h' h :
  kept (calls ++ [CallCreateInstance (res, h')]) h <->
  (XR_SUCCEEDED res = true /\ h' = h) \/ kept calls h.
Proof.
  split.
  - intros (pre & r & post & Heq & Hr & Hnd).
    destruct post as [|x post _] using rev_ind.
    + apply app_inj_tail in Heq as [_ [= -> ->]]. now left.
    + rewrite app_comm_cons, app_assoc in Heq. apply app_inj_tail in Heq as [-> <-].
      right. exists pre, r, post. repeat split; auto.
      intros Hnn Hin. apply (Hnd Hnn), in_or_app. now left.
  - intros [[Hr <-]|(pre & r & post & -> & Hr & Hnd)].
    + exists calls, res, []. repeat split; auto.
    + exists pre, r, (post ++ [CallCreateInstance (res, h')]).
      rewrite <- app_assoc. repeat split; auto.
      intros Hnn Hin. apply in_app_or in Hin as [Hin|[Hin|[]]];
        [now apply (Hnd Hnn)|discriminate].
Qed.

Lemma kept_snoc_destroy calls h' h :
  kept (calls ++ [CallDestroyInstance h']) h <->
  ~ (h' <> XR_NULL_HANDLE /\ h' = h) /\ kept calls h.
Proof.
  split.
  - intros (pre & r & post & Heq & Hr & Hnd).
    destruct post as [|x post _] using rev_ind.
    + apply app_inj_tail in Heq as [_ [=]].
    + rewrite app_comm_cons, app_assoc in Heq. apply app_inj_tail in Heq as [-> <-].
      split.
      * intros [Hnn ->]. apply (Hnd Hnn), in_or_app. right. now left.
      * exists pre, r, post. repeat split; auto.
        intros Hnn Hin. apply (Hnd Hnn), in_or_app. now left.
  - intros [Hne (pre & r & post & -> & Hr & Hnd)].
    exists pre, r, (post ++ [CallDestroyInstance h']).
    rewrite <- app_assoc. repeat split; auto.
    intros Hnn Hin. apply in_app_or in Hin as [Hin|[Hin|[]]];
      [now apply (Hnd Hnn)|].
    injection Hin as ->. apply Hne. now split.
Qed.

Lemma cache_tracks_kept self calls h :
  _dispatch_table_map self = ∅ ->
  (is_Some (_dispatch_table_map (fst (run_calls calls (self, []))) !! h) <-> kept calls h).
Proof.
  intros Hempty. induction calls as [|c calls IH] using rev_ind.
  - simpl. rewrite Hempty, lookup_empty.
    split; [intros [? [=]]|intros H; now apply kept_nil in H].
  - rewrite run_calls_snoc.
    destruct (run_calls calls (self, [])) as [self' tr'] eqn:Hrun. simpl in IH.
    destruct c as [[res h']|h']; cbn [step_call fst snd].
    + rewrite CreateInstance_lookup, kept_snoc_create, <- IH.
      case_decide as Hd; [split; [now left|eauto]|].
      split; [now right|intros [Hc|Hl]; [contradiction|exact Hl]].
    + rewrite DestroyInstance_lookup, kept_snoc_destroy, <- IH.
      case_decide as Hd.
      * split; [intros [? [=]]|]. intros [Hne _]. contradiction.
      * split; [now split|now intros [_ Hl]].
Qed.

Lemma kept_live calls h :
  h <> XR_NULL_HANDLE \/ runtime_conformant calls ->
  (kept calls h <-> live calls h).
Proof.
  intros Hok. split.
  - intros (pre & r & post & -> & Hr & Hnd). exists pre, r, post.
    repeat split; auto. apply Hnd.
    destruct Hok as [Hnn|Hc]; [exact Hnn|].
    apply (Hc r h); [|exact Hr]. apply in_or_app. right. now left.
  - intros (pre & r & post & -> & Hr & Hnd). exists pre, r, post. repeat split; auto.
Qed.

(** C4, as the code has it: on a session whose cache starts empty, after
    any sequence of CreateInstance and DestroyInstance calls
    GetDispatchTable gives a table for a handle exactly when a successful
    CreateInstance handed the handle out and no later DestroyInstance took
    it back, where DestroyInstance takes the null handle never back.  For
    every handle other than the null one, and for all handles when the
    runtime creates no null instance, that is: exactly when the handle is
    live.  A second DestroyInstance on the same handle returns Success and
    leaves the cache as the first one left it. *)
Theorem cache_follows_calls (self : RuntimeInterface) (calls : list InstanceCall)
    (h : XrInstance) :
  _dispatch_table_map self = ∅ ->
  let st := run_calls calls (self, []) in
  (GetDispatchTable (fst st) h <> None <-> kept calls h) /\
  (h <> XR_NULL_HANDLE \/ runtime_conformant calls ->
     (GetDispatchTable (fst st) h <> None <-> live calls h)) /\
  (let st1 := snd (DestroyInstance h (fst st) (snd st)) in
   let second := DestroyInstance h (fst st1) (snd st1) in
   fst second = XR_SUCCESS /\
   _dispatch_table_map (fst (snd second)) = _dispatch_table_map (fst st1)).
Proof.
  intros Hempty st.
  assert (Hkept : GetDispatchTable (fst st) h <> None <-> kept calls h).
  { rewrite GetDispatchTable_lookup.
    rewrite <- (cache_tracks_kept self calls h Hempty). fold st.
    destruct (_dispatch_table_map (fst st) !! h); split; try congruence; eauto.
    intros [? [=]]. }
  split; [exact Hkept|]. split.
  - intros Hok. now rewrite Hkept, (kept_live calls h Hok).
  - intros st1 second. split; [apply DestroyInstance_result|].
    pose proof (DestroyInstance_twice h (fst st) (snd st)) as Htwice.
    subst second st1. destruct (DestroyInstance h (fst st) (snd st)) as [r [self1 tr1]].
    cbn [fst snd]. now rewrite Htwice.
Qed.

Lemma cache_follows_calls_witness :
  let st := run_calls sample_calls (RuntimeInterface_new "a.so" sample_procs, []) in
  (GetDispatchTable (fst st) 8 <> None <-> live sample_calls 8) /\
  (GetDispatchTable (fst st) 7 <> None <-> live sample_calls 7) /\
  live sample_calls 8 /\ ~ live sample_calls 7.
Proof.
  intros st.
  destruct (cache_follows_calls (RuntimeInterface_new "a.so" sample_procs) sample_calls 8
              eq_refl) as (_ & H8 & _).
  destruct (cache_follows_calls (RuntimeInterface_new "a.so" sample_procs) sample_calls 7
              eq_refl) as (_ & H7 & _).
  assert (N8 : (8 : Z) <> XR_NULL_HANDLE) by (unfold XR_NULL_HANDLE; lia).
  assert (N7 : (7 : Z) <> XR_NULL_HANDLE) by (unfold XR_NULL_HANDLE; lia).
  specialize (H8 (or_introl N8)). specialize (H7 (or_introl N7)).
  split; [exact H8|]. split; [exact H7|]. split.
  - apply H8. vm_compute. discriminate.
  - intros Hl. apply H7 in Hl. apply Hl. vm_compute. reflexivity.
Defined.

(** C4, as it is stated, fails on the null handle: a runtime hands it
    out with Success, DestroyInstance on it does nothing, and the table
    stays in the cache for a handle that was created and destroyed. *)
Lemma cache_matches_live_fails :
  ~ cache_matches_live (RuntimeInterface_new "a.so" sample_procs)
      null_instance_calls XR_NULL_HANDLE.
Proof.
  unfold cache_matches_live. intros [Hlive _].
  assert (Hl : live null_instance_calls XR_NULL_HANDLE).
  { apply Hlive. vm_compute. discriminate. }
  change null_instance_calls
    with ([CallCreateInstance (XR_SUCCESS, XR_NULL_HANDLE)]
            ++ [CallDestroyInstance XR_NULL_HANDLE]) in Hl.
  apply live_snoc_destroy in Hl as [Hne _]. now apply Hne.
Qed.

Example null_instance_stays_cached :
  GetDispatchTable
    (fst (run_calls null_instance_calls (RuntimeInterface_new "a.so" sample_procs, [])))
    XR_NULL_HANDLE
  = Some (GeneratedXrPopulateDispatchTable XR_NULL_HANDLE sample_procs).
Proof. reflexivity. Qed.

(** ** One candidate *)

Lemma opened_libraries_app tr1 tr2 :
  opened_libraries (tr1 ++ tr2) = opened_libraries tr1 ++ opened_libraries tr2.
Proof.
  induction tr1 as [|e tr1 IH]; [reflexivity|].
  destruct e; simpl; now rewrite IH.
Qed.

Lemma enumerate_two_call_opens gipa : opened_libraries (snd (enumerate_two_call gipa)) = [].
Proof. unfold enumerate_two_call. now destruct (0 <? _)%nat. Qed.

Lemma GetInstanceExtensionProperties_opens self c :
  opened_libraries (snd (GetInstanceExtensionProperties self c)) = [].
Proof.
  unfold GetInstanceExtensionProperties.
  pose proof (enumerate_two_call_opens (_get_instance_proc_addr self)) as H.
  now destruct (enumerate_two_call (_get_instance_proc_addr self)).
Qed.

Lemma call_negotiate_opens build manifest_file runtime_library :
  opened_libraries (snd (call_negotiate build manifest_file runtime_library)) = [].
Proof.
  unfold call_negotiate. destruct (proc_negotiate _ _) as [negotiate|]; [|reflexivity].
  now destruct (negotiate _ _).
Qed.

Local Ltac trace_step :=
  cbn; rewrite ?opened_libraries_app; cbn; rewrite ?app_nil_r; auto.

Lemma use_runtime_spec path gipa w :
  w_instance (use_runtime path gipa w) = Some (session_of path gipa) /\
  w_initialized (use_runtime path gipa w) = w_initialized w /\
  opened_libraries (w_trace (use_runtime path gipa w)) = opened_libraries (w_trace w).
Proof.
  unfold use_runtime, session_of.
  pose proof (GetInstanceExtensionProperties_opens (RuntimeInterface_new path gipa) []) as Ho.
  destruct (GetInstanceExtensionProperties (RuntimeInterface_new path gipa) []) as [l evs].
  simpl in *. repeat split.
  rewrite !opened_libraries_app, Ho.
  destruct (w_instance w); simpl; now rewrite !app_nil_r.
Qed.

Lemma accepted_negotiation_has_getter build res runtime_info :
  XR_FAILED (check_negotiation build res runtime_info) = false ->
  getInstanceProcAddr runtime_info <> None.
Proof.
  rewrite XR_FAILED_not_SUCCEEDED, negb_false_iff. intros Hok Hnone.
  destruct (XR_SUCCEEDED res) eqn:Hs.
  - rewrite (check_negotiation_succeeded _ _ _ Hs), Hnone in Hok. discriminate.
  - rewrite (check_negotiation_failed_passes _ _ _ Hs) in Hok. congruence.
Qed.

(** What one attempt does to the process, whatever the process and the
    two reference parameters are: the library is opened, once; a candidate
    that is accepted becomes the session and sets the flag and the slot; a
    candidate that is not leaves session and flag as they are. *)
Lemma TryLoadingSingleRuntime_cases build plat manifest_file any_loaded last_error w :
  let r := TryLoadingSingleRuntime build plat manifest_file any_loaded last_error w in
  opened_libraries (w_trace (snd r))
    = opened_libraries (w_trace w) ++ [LibraryPath manifest_file] /\
  w_initialized (snd r) = w_initialized w /\
  match runtime_of build plat manifest_file with
  | Some s => fst r = (true, XR_SUCCESS) /\ w_instance (snd r) = Some s
  | None => fst (fst r) = any_loaded /\ w_instance (snd r) = w_instance w
  end.
Proof.
  unfold runtime_of, TryLoadingSingleRuntime. cbv zeta.
  destruct (LoaderPlatformLibraryOpen plat (LibraryPath manifest_file)) as [lib|];
    [|now trace_step].
  pose proof (call_negotiate_opens build manifest_file lib) as Hn.
  destruct (forward_initialize build manifest_file lib) as [ires|];
    [destruct (negb (XR_SUCCEEDED ires)); [now trace_step|]|];
    destruct (call_negotiate build manifest_file lib) as [[res runtime_info] evs];
    cbn [snd] in Hn;
    (destruct (XR_FAILED (check_negotiation build res runtime_info)) eqn:Hf;
       [|destruct (getInstanceProcAddr runtime_info) as [gipa|]]);
    try (now trace_step; rewrite Hn; trace_step).
  - cbn [fst snd].
    destruct (use_runtime_spec (LibraryPath manifest_file) gipa
                (emits evs (emit (EvInitializeLoader (LibraryPath manifest_file))
                   (emit (EvLibraryOpen (LibraryPath manifest_file)) w))))
      as (-> & -> & ->).
    destruct (use_runtime_spec (LibraryPath manifest_file) gipa
                (emits evs (emit (EvInitializeLoader (LibraryPath manifest_file))
                   (emit (EvLibraryOpen (LibraryPath manifest_file)) (empty_world true)))))
      as (-> & _ & _).
    now trace_step; rewrite Hn; trace_step.
  - cbn [fst snd].
    destruct (use_runtime_spec (LibraryPath manifest_file) gipa
                (emits evs (emit (EvLibraryOpen (LibraryPath manifest_file)) w)))
      as (-> & -> & ->).
    destruct (use_runtime_spec (LibraryPath manifest_file) gipa
                (emits evs (emit (EvLibraryOpen (LibraryPath manifest_file))
                   (empty_world true))))
      as (-> & _ & _).
    now trace_step; rewrite Hn; trace_step.
Qed.

(** A candidate whose library opens and whose forwarded initialisation
    does not fail is accepted exactly when its answer passes the gate. *)
Lemma accepted_by_gate build plat manifest_file lib res runtime_info evs :
  LoaderPlatformLibraryOpen plat (LibraryPath manifest_file) = Some lib ->
  match forward_initialize build manifest_file lib with
  | Some ires => XR_SUCCEEDED ires = true
  | None => True
  end ->
  call_negotiate build manifest_file lib = (res, runtime_info, evs) ->
  accepted build plat manifest_file
    = negb (XR_FAILED (check_negotiation build res runtime_info)).
Proof.
  intros Hopen Hinit Hneg. unfold accepted, runtime_of, TryLoadingSingleRuntime.
  rewrite Hopen. cbv zeta.
  destruct (forward_initialize build manifest_file lib) as [ires|];
    [rewrite Hinit; cbn [negb]|]; rewrite Hneg;
    (destruct (XR_FAILED (check_negotiation build res runtime_info)) eqn:Hf;
       [reflexivity|]);
    pose proof (accepted_negotiation_has_getter build res runtime_info Hf) as Hg;
    (destruct (getInstanceProcAddr runtime_info) as [gipa|]; [|congruence]);
    cbn [fst snd];
    match goal with
    | |- context [use_runtime ?p ?g ?w0] =>
        destruct (use_runtime_spec p g w0) as (-> & _)
    end; reflexivity.
Qed.

(** ** The scan *)

Section Scan.
Variables (build : LoaderBuild) (plat : Platform).

Lemma scan_manifest_files_app l1 l2 any_loaded last_error w :
  scan_manifest_files build plat (l1 ++ l2) any_loaded last_error w =
    let r := scan_manifest_files build plat l1 any_loaded last_error w in
    scan_manifest_files build plat l2 (fst (fst r)) (snd (fst r)) (snd r).
Proof.
  revert any_loaded last_error w. induction l1 as [|m l1 IH]; intros al le w;
    [reflexivity|].
  simpl. destruct (TryLoadingSingleRuntime build plat m al le w) as [[al1 le1] w1].
  apply IH.
Qed.

(** Every manifest of the list is tried, in the order of the list. *)
Lemma scan_manifest_files_opens files any_loaded last_error w :
  opened_libraries (w_trace (snd (scan_manifest_files build plat files any_loaded last_error w)))
    = opened_libraries (w_trace w) ++ map LibraryPath files.
Proof.
  revert any_loaded last_error w. induction files as [|m files IH]; intros al le w.
  - simpl. now rewrite app_nil_r.
  - simpl.
    destruct (TryLoadingSingleRuntime_cases build plat m al le w) as (Ho & _ & _).
    destruct (TryLoadingSingleRuntime build plat m al le w) as [[al1 le1] w1].
    rewrite IH. cbn [snd] in Ho. rewrite Ho, <- app_assoc. reflexivity.
Qed.

Lemma scan_manifest_files_initialized files any_loaded last_error w :
  w_initialized (snd (scan_manifest_files build plat files any_loaded last_error w))
    = w_initialized w.
Proof.
  revert any_loaded last_error w. induction files as [|m files IH]; intros al le w;
    [reflexivity|].
  simpl.
  destruct (TryLoadingSingleRuntime_cases build plat m al le w) as (_ & Hi & _).
  destruct (TryLoadingSingleRuntime build plat m al le w) as [[al1 le1] w1].
  rewrite IH. exact Hi.
Qed.

Lemma scan_manifest_files_rejected files any_loaded last_error w :
  forallb (fun m => negb (accepted build plat m)) files = true ->
  let r := scan_manifest_files build plat files any_loaded last_error w in
  fst (fst r) = any_loaded /\ w_instance (snd r) = w_instance w.
Proof.
  revert any_loaded last_error w. induction files as [|m files IH]; intros al le w;
    [now split|].
  simpl. intros [Hm Hrest]%andb_true_iff.
  destruct (TryLoadingSingleRuntime_cases build plat m al le w) as (_ & _ & Hc).
  unfold accepted in Hm.
  destruct (runtime_of build plat m); [discriminate|].
  destruct (TryLoadingSingleRuntime build plat m al le w) as [[al1 le1] w1].
  cbn [fst snd] in Hc. destruct Hc as [-> <-]. now apply IH.
Qed.

(** The candidate that is bound after the scan of [pre ++ m :: post]
    is the last one that is accepted. *)
Lemma scan_manifest_files_last pre m post any_loaded last_error w :
  accepted build plat m = true ->
  forallb (fun m => negb (accepted build plat m)) post = true ->
  let r := scan_manifest_files build plat (pre ++ m :: post) any_loaded last_error w in
  fst (fst r) = true /\ w_instance (snd r) = runtime_of build plat m.
Proof.
  intros Hm Hpost. rewrite scan_manifest_files_app. cbv zeta.
  destruct (scan_manifest_files build plat pre any_loaded last_error w) as [[al0 le0] w0].
  cbn [fst snd scan_manifest_files].
  destruct (TryLoadingSingleRuntime_cases build plat m al0 le0 w0) as (_ & _ & Hc).
  unfold accepted in Hm.
  destruct (runtime_of build plat m) as [s|]; [|discriminate].
  destruct (TryLoadingSingleRuntime build plat m al0 le0 w0) as [[al1 le1] w1].
  cbn [fst snd] in Hc. destruct Hc as [[= -> ->] <-].
  now apply scan_manifest_files_rejected.
Qed.

(** The flag is set only with a session. *)
Lemma scan_manifest_files_flag files any_loaded last_error w :
  (any_loaded = true -> is_Some (w_instance w)) ->
  let r := scan_manifest_files build plat files any_loaded last_error w in
  fst (fst r) = true -> is_Some (w_instance (snd r)).
Proof.
  revert any_loaded last_error w. induction files as [|m files IH]; intros al le w Hinv;
    [exact Hinv|].
  simpl.
  destruct (TryLoadingSingleRuntime_cases build plat m al le w) as (_ & _ & Hc).
  destruct (TryLoadingSingleRuntime build plat m al le w) as [[al1 le1] w1].
  cbn [fst snd] in Hc. apply IH.
  destruct (runtime_of build plat m) as [s|].
  - destruct Hc as [_ ->]. eauto.
  - destruct Hc as [-> ->]. exact Hinv.
Qed.

Lemma LoadRuntime_scans w :
  scans build plat w ->
  LoadRuntime build plat w =
    let r := scan_manifest_files build plat (snd (FindManifestFiles plat)) false
               (fst (FindManifestFiles plat)) (emit EvFindManifestFiles w) in
    (if negb (fst (fst r)) then XR_ERROR_INSTANCE_LOST else snd (fst r), snd r).
Proof.
  intros (Hnone & Hgate & Hfound). unfold LoadRuntime. rewrite Hnone, Hgate.
  destruct (FindManifestFiles plat) as [found files]. cbn [fst snd] in *.
  rewrite Hfound.
  now destruct (scan_manifest_files build plat files false found _) as [[al le] w'].
Qed.
End Scan.

(** C1, as the code has it: in a scan every manifest is tried, in the
    order of the list, bound or not, and its library is opened; a candidate
    that is accepted takes the place of the session bound before it, so the
    session after the scan is that of the last accepted candidate, and
    there is none when no candidate is accepted. *)
Theorem last_match_wins (build : LoaderBuild) (plat : Platform) (w : World) :
  scans build plat w ->
  let files := snd (FindManifestFiles plat) in
  let w' := snd (LoadRuntime build plat w) in
  opened_libraries (w_trace w') = opened_libraries (w_trace w) ++ map LibraryPath files /\
  (forall pre manifest_file post,
     files = pre ++ manifest_file :: post ->
     accepted build plat manifest_file = true ->
     forallb (fun m => negb (accepted build plat m)) post = true ->
     w_instance w' = runtime_of build plat manifest_file) /\
  (forallb (fun m => negb (accepted build plat m)) files = true -> w_instance w' = None).
Proof.
  intros Hscan files w'. subst w'. rewrite (LoadRuntime_scans build plat w Hscan).
  cbv zeta. cbn [snd]. fold files. split; [|split].
  - rewrite scan_manifest_files_opens. cbn. rewrite opened_libraries_app. cbn.
    now rewrite app_nil_r.
  - intros pre m post -> Hm Hpost.
    now apply scan_manifest_files_last.
  - intros Hnone.
    destruct (scan_manifest_files_rejected build plat files false
                (fst (FindManifestFiles plat)) (emit EvFindManifestFiles w) Hnone)
      as [_ ->].
    destruct Hscan as [Hw _]. exact Hw.
Qed.

Lemma two_good_runtimes_scans : scans desktop_build two_good_runtimes (empty_world false).
Proof. repeat split. Qed.

Lemma last_match_wins_witness :
  scans desktop_build two_good_runtimes (empty_world false) /\
  w_instance (snd (LoadRuntime desktop_build two_good_runtimes (empty_world false)))
    = Some (session_of "b.so" sample_procs) /\
  opened_libraries
    (w_trace (snd (LoadRuntime desktop_build two_good_runtimes (empty_world false))))
    = ["a.so"; "b.so"].
Proof.
  split; [exact two_good_runtimes_scans|].
  destruct (last_match_wins desktop_build two_good_runtimes (empty_world false)
              two_good_runtimes_scans) as (Hopened & Hlast & _).
  split.
  - rewrite (Hlast [sample_manifest "a.so"] (sample_manifest "b.so") []);
      reflexivity.
  - rewrite Hopened. reflexivity.
Defined.

(** C1, as it is stated, fails on two runtimes that both negotiate: the
    second is tried after the first is bound, and it is the second that
    stays bound. *)
Lemma first_match_wins_fails :
  ~ first_match_wins desktop_build two_good_runtimes (empty_world false).
Proof.
  intros H.
  destruct (H [] (sample_manifest "a.so") [sample_manifest "b.so"]
              eq_refl eq_refl eq_refl) as [_ Hopened].
  vm_compute in Hopened. discriminate Hopened.
Qed.

Example second_runtime_stays_bound :
  option_map _runtime_library
    (w_instance (snd (LoadRuntime desktop_build two_good_runtimes (empty_world false))))
  = Some "b.so" /\
  w_trace (snd (LoadRuntime desktop_build two_good_runtimes (empty_world false)))
  = [ EvFindManifestFiles;
      EvLibraryOpen "a.so"; EvNegotiate "a.so"; EvEnumerateExtensions; EvEnumerateExtensions;
      EvLibraryOpen "b.so"; EvNegotiate "b.so"; EvLibraryClose "a.so";
      EvEnumerateExtensions; EvEnumerateExtensions ].
Proof. split; reflexivity. Qed.

(** ** The result of a scan that binds nothing *)

(** C2, as the code has it: a LoadRuntime that gets past the
    initialisation gate and ends with no session returns InstanceLost,
    whatever made the candidates fail: libraries that do not open, rejected
    negotiations, or a manifest search that failed. *)
Theorem no_backend_is_instance_lost (build : LoaderBuild) (plat : Platform) (w : World) :
  w_instance w = None ->
  XR_KHR_LOADER_INIT_SUPPORT build && negb (w_initialized w) = false ->
  w_instance (snd (LoadRuntime build plat w)) = None ->
  fst (LoadRuntime build plat w) = XR_ERROR_INSTANCE_LOST.
Proof.
  intros Hw Hgate. unfold LoadRuntime. rewrite Hw, Hgate.
  destruct (FindManifestFiles plat) as [found files].
  destruct (XR_FAILED found); [reflexivity|].
  pose proof (scan_manifest_files_flag build plat files false found
                (emit EvFindManifestFiles w)) as Hflag.
  destruct (scan_manifest_files build plat files false found (emit EvFindManifestFiles w))
    as [[al le] w'].
  cbn [fst snd] in *. intros Hnone.
  destruct al; [|reflexivity].
  destruct Hflag as [s Hs]; [discriminate|reflexivity|congruence].
Qed.

Lemma no_backend_is_instance_lost_witness :
  w_instance (snd (LoadRuntime desktop_build one_rejected_runtime (empty_world false))) = None /\
  candidate_error desktop_build one_rejected_runtime (sample_manifest "a.so")
    = XR_ERROR_FILE_CONTENTS_INVALID /\
  fst (LoadRuntime desktop_build one_rejected_runtime (empty_world false))
    = XR_ERROR_INSTANCE_LOST.
Proof.
  split; [reflexivity|]. split; [reflexivity|].
  apply (no_backend_is_instance_lost desktop_build one_rejected_runtime (empty_world false));
    reflexivity.
Defined.

(** C2, as it is stated, fails on one runtime whose library opens and
    whose negotiation is rejected: the result is InstanceLost. *)
Lemma aggregate_error_by_cause_fails :
  ~ aggregate_error_by_cause desktop_build one_rejected_runtime (empty_world false).
Proof.
  unfold aggregate_error_by_cause.
  destruct (LoadRuntime desktop_build one_rejected_runtime (empty_world false))
    as [res w'] eqn:E.
  vm_compute in E. injection E as <- <-.
  intros H. destruct (H eq_refl) as [_ Hopens].
  destruct (Hopens eq_refl) as [Hne _]. now apply Hne.
Qed.

(** ** The last-error slot *)

(** With a backend bound, a library that does not open leaves the slot. *)
Lemma open_failure_keeps_last_error build plat manifest_file last_error w :
  LoaderPlatformLibraryOpen plat (LibraryPath manifest_file) = None ->
  fst (TryLoadingSingleRuntime build plat manifest_file true last_error w)
    = (true, last_error).
Proof. intros Hopen. unfold TryLoadingSingleRuntime. now rewrite Hopen. Qed.

(** With a backend bound, a rejected negotiation leaves the slot. *)
Lemma rejection_keeps_last_error build plat manifest_file last_error w lib :
  LoaderPlatformLibraryOpen plat (LibraryPath manifest_file) = Some lib ->
  forward_initialize build manifest_file lib = None ->
  runtime_of build plat manifest_file = None ->
  fst (TryLoadingSingleRuntime build plat manifest_file true last_error w)
    = (true, last_error).
Proof.
  intros Hopen Hinit. unfold runtime_of, TryLoadingSingleRuntime.
  rewrite Hopen, Hinit. cbv zeta.
  destruct (call_negotiate build manifest_file lib) as [[res runtime_info] evs].
  destruct (XR_FAILED (check_negotiation build res runtime_info));
    [reflexivity|destruct (getInstanceProcAddr runtime_info) as [gipa|]; [|reflexivity]].
  cbn [fst snd].
  destruct (use_runtime_spec (LibraryPath manifest_file) gipa
              (emits evs (emit (EvLibraryOpen (LibraryPath manifest_file))
                 (empty_world true)))) as (-> & _).
  discriminate.
Qed.

(** A forwarded initialisation that fails is written to the slot whether
    or not a backend is bound. *)
Lemma init_failure_sets_last_error build plat manifest_file any_loaded last_error w lib res :
  LoaderPlatformLibraryOpen plat (LibraryPath manifest_file) = Some lib ->
  forward_initialize build manifest_file lib = Some res ->
  XR_SUCCEEDED res = false ->
  fst (TryLoadingSingleRuntime build plat manifest_file any_loaded last_error w)
    = (any_loaded, res).
Proof.
  intros Hopen Hinit Hres. unfold TryLoadingSingleRuntime.
  now rewrite Hopen, Hinit, Hres.
Qed.

(** C8: on a build with the initialisation block, a runtime is bound and
    the next candidate's xrInitializeLoaderKHR fails: the slot takes the
    failure although a backend is bound, and LoadRuntime returns it with
    the first runtime as session.  The scan itself goes on: both libraries
    are opened. *)
Theorem init_failure_after_bind :
  fst (TryLoadingSingleRuntime android_build good_then_failing_init
         (sample_manifest "b.so") true XR_SUCCESS sample_world)
    = (true, XR_ERROR_RUNTIME_FAILURE) /\
  fst (LoadRuntime android_build good_then_failing_init (empty_world true))
    = XR_ERROR_RUNTIME_FAILURE /\
  w_instance (snd (LoadRuntime android_build good_then_failing_init (empty_world true)))
    = Some (session_of "a.so" sample_procs) /\
  opened_libraries
    (w_trace (snd (LoadRuntime android_build good_then_failing_init (empty_world true))))
    = ["a.so"; "b.so"].
Proof. repeat split. Qed.

(** ** Creating an instance *)

(** C3: the runtime creates instance 7 and the population of the table
    fails (a name does not resolve): CreateInstance returns Success with the
    handle 7, the incomplete table is in the cache, and the runtime's
    destroy entry point is not called. *)
Theorem populate_failure_not_rolled_back :
  let self := RuntimeInterface_new "a.so" partial_procs in
  let r := CreateInstance (XR_SUCCESS, 7) self [] in
  table_complete (GeneratedXrPopulateDispatchTable 7 partial_procs) = false /\
  fst r = (XR_SUCCESS, 7) /\
  GetDispatchTable (fst (snd r)) 7 = Some (GeneratedXrPopulateDispatchTable 7 partial_procs) /\
  snd (snd r) = [EvCreateInstance] /\
  destroy_calls (snd (snd r)) 7 = 0%nat.
Proof. repeat split. Qed.

(** No call of [CreateInstance] reaches the runtime's destroy entry point. *)
Lemma CreateInstance_never_destroys answer self tr h :
  destroy_calls (snd (snd (CreateInstance answer self tr))) h = destroy_calls tr h.
Proof.
  destruct answer as [res instance]. rewrite CreateInstance_spec. cbn [fst snd].
  unfold destroy_calls. rewrite List.filter_app, length_app. simpl. lia.
Qed.


(** * Further properties *)

(** ** Loader initialisation data *)

Lemma valid_init_info_dec info : {valid_init_info info} + {~ valid_init_info info}.
Proof.
  unfold valid_init_info.
  destruct (Z.eq_dec (type info) XR_TYPE_LOADER_INIT_INFO_ANDROID_KHR);
    destruct (Z.eq_dec (applicationVM info) nullptr);
    destruct (Z.eq_dec (applicationContext info) nullptr); tauto.
Qed.

Lemma initialize_valid info self :
  valid_init_info info -> initialize info self = (XR_SUCCESS, stored_info info).
Proof.
  intros (Ht & Hvm & Hctx). unfold initialize.
  apply Z.eqb_eq in Ht. apply Z.eqb_neq in Hvm, Hctx.
  now rewrite Ht, Hvm, Hctx.
Qed.

Lemma initialize_invalid info self :
  ~ valid_init_info info -> initialize info self = (XR_ERROR_VALIDATION_FAILURE, self).
Proof.
  intros Hinv. unfold initialize, valid_init_info in *.
  destruct (Z.eqb_spec (type info) XR_TYPE_LOADER_INIT_INFO_ANDROID_KHR); [|reflexivity].
  destruct (Z.eqb_spec (applicationVM info) nullptr); [reflexivity|].
  destruct (Z.eqb_spec (applicationContext info) nullptr); [reflexivity|].
  tauto.
Qed.

(** X1: the initialisation succeeds exactly on an Android structure with
    a VM and a context; it then stores the structure with [next] cleared
    and sets the flag.  Any other structure gives ValidationFailure and
    leaves the stored data and the flag as they were. *)
Theorem initialize_validates (info : XrLoaderInitInfoAndroidKHR) (self : LoaderInitData) :
  (valid_init_info info ->
     InitializeLoader info self = (XR_SUCCESS, stored_info info)) /\
  (~ valid_init_info info ->
     InitializeLoader info self = (XR_ERROR_VALIDATION_FAILURE, self)) /\
  (fst (InitializeLoader info self) = XR_SUCCESS <-> valid_init_info info).
Proof.
  unfold InitializeLoader. split; [apply initialize_valid|].
  split; [apply initialize_invalid|].
  destruct (valid_init_info_dec info) as [Hv|Hv].
  - rewrite (initialize_valid info self Hv). tauto.
  - rewrite (initialize_invalid info self Hv). split; [discriminate|tauto].
Qed.

Lemma initialize_validates_witness :
  InitializeLoader android_init_info LoaderInitData_instance
    = (XR_SUCCESS, stored_info android_init_info) /\
  InitializeLoader init_info_without_vm (stored_info android_init_info)
    = (XR_ERROR_VALIDATION_FAILURE, stored_info android_init_info).
Proof.
  split.
  - apply (initialize_validates android_init_info LoaderInitData_instance).
    repeat split; unfold nullptr; simpl; lia.
  - apply (initialize_validates init_info_without_vm (stored_info android_init_info)).
    intros (_ & Hvm & _). now apply Hvm.
Defined.

Lemma initialize_all_snoc infos info singleton :
  initialize_all (infos ++ [info]) singleton
    = snd (InitializeLoader info (initialize_all infos singleton)).
Proof. unfold initialize_all. now rewrite fold_left_app. Qed.

Lemma initialize_all_invalid infos singleton :
  Forall (fun info => ~ valid_init_info info) infos ->
  initialize_all infos singleton = singleton.
Proof.
  induction infos as [|info infos IH] using rev_ind; [reflexivity|].
  intros [Hinfos Hinfo]%Forall_app. apply Forall_inv in Hinfo.
  rewrite initialize_all_snoc, (IH Hinfos). unfold InitializeLoader.
  now rewrite (initialize_invalid _ _ Hinfo).
Qed.

(** X2: after any run of InitializeLoader calls the singleton holds the
    last structure that was valid, with [next] cleared, whatever invalid
    calls came after it; and it is as it was when no call was valid. *)
Theorem initialize_all_keeps_last_valid (infos : list XrLoaderInitInfoAndroidKHR)
    (singleton : LoaderInitData) :
  (forall pre info post,
     infos = pre ++ info :: post ->
     valid_init_info info ->
     Forall (fun i => ~ valid_init_info i) post ->
     initialize_all infos singleton = stored_info info) /\
  (Forall (fun i => ~ valid_init_info i) infos ->
     initialize_all infos singleton = singleton).
Proof.
  split; [|apply initialize_all_invalid].
  intros pre info post -> Hvalid Hpost.
  unfold initialize_all. rewrite fold_left_app. simpl.
  unfold InitializeLoader at 2. rewrite (initialize_valid _ _ Hvalid). cbn [snd].
  now apply initialize_all_invalid.
Qed.

Lemma initialize_all_keeps_last_valid_witness :
  initialize_all [init_info_without_vm; android_init_info; init_info_without_vm]
    LoaderInitData_instance
  = stored_info android_init_info.
Proof.
  destruct (initialize_all_keeps_last_valid
              [init_info_without_vm; android_init_info; init_info_without_vm]
              LoaderInitData_instance) as [Hlast _].
  apply (Hlast [init_info_without_vm] android_init_info [init_info_without_vm]).
  - reflexivity.
  - repeat split; unfold nullptr; simpl; lia.
  - constructor; [|constructor]. intros (_ & Hvm & _). now apply Hvm.
Defined.

(** Whenever the flag is set, the stored structure is one that
    [initialize] accepts and its [next] is null. *)
Lemma initialized_data_valid infos :
  let d := initialize_all infos LoaderInitData_instance in
  _initialized d = true -> valid_init_info (_data d) /\ next (_data d) = nullptr.
Proof.
  induction infos as [|info infos IH] using rev_ind; [discriminate|].
  rewrite initialize_all_snoc. cbv zeta in *. unfold InitializeLoader.
  destruct (valid_init_info_dec info) as [Hv|Hv].
  - rewrite (initialize_valid _ _ Hv). intros _. split; [exact Hv|reflexivity].
  - now rewrite (initialize_invalid _ _ Hv).
Qed.

(** ** LoadRuntime without a session *)

(** X3: the two ways in which LoadRuntime ends before the scan.  On a
    build with the initialisation block and no initialisation done it
    returns InitializationFailed and touches nothing.  When the manifest
    search fails it returns InstanceLost, not FileAccessError, after that
    one call: no library is opened, whatever the search left in the list. *)
Theorem LoadRuntime_without_scan (build : LoaderBuild) (plat : Platform) (w : World) :
  w_instance w = None ->
  (XR_KHR_LOADER_INIT_SUPPORT build = true -> w_initialized w = false ->
     LoadRuntime build plat w = (XR_ERROR_INITIALIZATION_FAILED, w)) /\
  (XR_KHR_LOADER_INIT_SUPPORT build && negb (w_initialized w) = false ->
   XR_FAILED (fst (FindManifestFiles plat)) = true ->
     LoadRuntime build plat w = (XR_ERROR_INSTANCE_LOST, emit EvFindManifestFiles w)).
Proof.
  intros Hw. unfold LoadRuntime. rewrite Hw. split.
  - now intros -> ->.
  - intros -> Hfailed. destruct (FindManifestFiles plat) as [found files].
    cbn [fst] in Hfailed. now rewrite Hfailed.
Qed.

Lemma LoadRuntime_without_scan_witness :
  LoadRuntime android_build two_good_runtimes (empty_world false)
    = (XR_ERROR_INITIALIZATION_FAILED, empty_world false) /\
  LoadRuntime desktop_build failed_search (empty_world false)
    = (XR_ERROR_INSTANCE_LOST, emit EvFindManifestFiles (empty_world false)).
Proof.
  split.
  - apply (LoadRuntime_without_scan android_build two_good_runtimes (empty_world false));
      reflexivity.
  - apply (LoadRuntime_without_scan desktop_build failed_search (empty_world false));
      reflexivity.
Defined.

Lemma forward_initialize_disabled build manifest_file lib :
  XR_KHR_LOADER_INIT_SUPPORT build = false ->
  forward_initialize build manifest_file lib = None.
Proof. unfold forward_initialize. now intros ->. Qed.

(** Without the initialisation block a set flag comes with a cleared slot. *)
Lemma TryLoadingSingleRuntime_slot build plat manifest_file any_loaded last_error w :
  XR_KHR_LOADER_INIT_SUPPORT build = false ->
  (any_loaded = true -> last_error = XR_SUCCESS) ->
  let r := TryLoadingSingleRuntime build plat manifest_file any_loaded last_error w in
  fst (fst r) = true -> snd (fst r) = XR_SUCCESS.
Proof.
  intros Hbuild Hinv. unfold TryLoadingSingleRuntime. cbv zeta.
  destruct (LoaderPlatformLibraryOpen plat (LibraryPath manifest_file)) as [lib|].
  - rewrite (forward_initialize_disabled build manifest_file lib Hbuild).
    destruct (call_negotiate build manifest_file lib) as [[res runtime_info] evs].
    destruct (XR_FAILED (check_negotiation build res runtime_info));
      [|destruct (getInstanceProcAddr runtime_info)]; cbn [fst snd];
      try reflexivity; intros ->; now apply Hinv.
  - cbn [fst snd]. intros ->. now apply Hinv.
Qed.

Lemma scan_manifest_files_slot build plat files any_loaded last_error w :
  XR_KHR_LOADER_INIT_SUPPORT build = false ->
  (any_loaded = true -> last_error = XR_SUCCESS) ->
  let r := scan_manifest_files build plat files any_loaded last_error w in
  fst (fst r) = true -> snd (fst r) = XR_SUCCESS.
Proof.
  intros Hbuild. revert any_loaded last_error w.
  induction files as [|m files IH]; intros al le w Hinv; [exact Hinv|].
  simpl.
  pose proof (TryLoadingSingleRuntime_slot build plat m al le w Hbuild Hinv) as Hslot.
  destruct (TryLoadingSingleRuntime build plat m al le w) as [[al1 le1] w1].
  now apply IH.
Qed.

Lemma scan_manifest_files_unbound build plat files any_loaded last_error w :
  (any_loaded = false -> w_instance w = None) ->
  let r := scan_manifest_files build plat files any_loaded last_error w in
  fst (fst r) = false -> w_instance (snd r) = None.
Proof.
  revert any_loaded last_error w.
  induction files as [|m files IH]; intros al le w Hinv; [exact Hinv|].
  simpl.
  destruct (TryLoadingSingleRuntime_cases build plat m al le w) as (_ & _ & Hc).
  destruct (TryLoadingSingleRuntime build plat m al le w) as [[al1 le1] w1].
  cbn [fst snd] in Hc. apply IH.
  destruct (runtime_of build plat m) as [s|].
  - destruct Hc as [[= -> _] _]. discriminate.
  - destruct Hc as [-> ->]. exact Hinv.
Qed.

(** X4: on a build without the initialisation block, a LoadRuntime on a
    process with no session ends in one of two ways: Success with a
    session, or InstanceLost with none. *)
Theorem LoadRuntime_bound_or_lost (build : LoaderBuild) (plat : Platform) (w : World) :
  XR_KHR_LOADER_INIT_SUPPORT build = false ->
  w_instance w = None ->
  let r := LoadRuntime build plat w in
  (fst r = XR_SUCCESS /\ is_Some (w_instance (snd r))) \/
  (fst r = XR_ERROR_INSTANCE_LOST /\ w_instance (snd r) = None).
Proof.
  intros Hbuild Hw. unfold LoadRuntime. rewrite Hw, Hbuild. cbn [andb].
  destruct (FindManifestFiles plat) as [found files].
  destruct (XR_FAILED found) eqn:Hfound; [right; now split|].
  assert (Hok : false = true -> found = XR_SUCCESS) by discriminate.
  pose proof (scan_manifest_files_slot build plat files false found
                (emit EvFindManifestFiles w) Hbuild Hok) as Hslot.
  pose proof (scan_manifest_files_flag build plat files false found
                (emit EvFindManifestFiles w)) as Hflag.
  pose proof (scan_manifest_files_unbound build plat files false found
                (emit EvFindManifestFiles w)) as Hunbound.
  destruct (scan_manifest_files build plat files false found (emit EvFindManifestFiles w))
    as [[al le] w'].
  cbn [fst snd] in *. destruct al; cbn [negb].
  - left. split; [now apply Hslot|]. apply Hflag; [discriminate|reflexivity].
  - right. split; [reflexivity|]. apply Hunbound; [intros _; exact Hw|reflexivity].
Qed.

Lemma LoadRuntime_bound_or_lost_witness :
  fst (LoadRuntime desktop_build two_good_runtimes (empty_world false)) = XR_SUCCESS /\
  fst (LoadRuntime desktop_build one_rejected_runtime (empty_world false))
    = XR_ERROR_INSTANCE_LOST.
Proof.
  split.
  - destruct (LoadRuntime_bound_or_lost desktop_build two_good_runtimes (empty_world false)
                eq_refl eq_refl) as [[Hres _]|[_ Hnone]]; [exact Hres|discriminate Hnone].
  - destruct (LoadRuntime_bound_or_lost desktop_build one_rejected_runtime
                (empty_world false) eq_refl eq_refl) as [[_ [s Hs]]|[Hres _]];
      [discriminate Hs|exact Hres].
Defined.

(** ** Library handles *)

Lemma closed_libraries_app tr1 tr2 :
  closed_libraries (tr1 ++ tr2) = closed_libraries tr1 ++ closed_libraries tr2.
Proof.
  induction tr1 as [|e tr1 IH]; [reflexivity|].
  destruct e; simpl; now rewrite IH.
Qed.

Lemma enumerate_two_call_closes gipa : closed_libraries (snd (enumerate_two_call gipa)) = [].
Proof. unfold enumerate_two_call. now destruct (0 <? _)%nat. Qed.

Lemma call_negotiate_closes build manifest_file runtime_library :
  closed_libraries (snd (call_negotiate build manifest_file runtime_library)) = [].
Proof.
  unfold call_negotiate. destruct (proc_negotiate _ _) as [negotiate|]; [|reflexivity].
  now destruct (negotiate _ _).
Qed.

(** Binding a runtime closes the library of the session it replaces. *)
Lemma use_runtime_closes path gipa w :
  closed_libraries (w_trace (use_runtime path gipa w))
    = closed_libraries (w_trace w) ++ held_library w /\
  held_library (use_runtime path gipa w) = [path].
Proof.
  unfold use_runtime, held_library, GetInstanceExtensionProperties.
  pose proof (enumerate_two_call_closes gipa) as Hc.
  cbn [_get_instance_proc_addr RuntimeInterface_new].
  destruct (enumerate_two_call gipa) as [l evs]. cbn [snd] in Hc.
  cbn. rewrite !closed_libraries_app, Hc, app_nil_r.
  split; [|reflexivity]. now destruct (w_instance w).
Qed.

Local Ltac close_step Hn :=
  cbn; rewrite ?closed_libraries_app, ?Hn; cbn; rewrite ?app_nil_r;
  rewrite <- ?app_assoc; try reflexivity;
  try (apply Permutation_app_head, Permutation_app_comm).

(** One attempt: a library that opened is closed again or is held by the
    session, and a session that is replaced gives its library back. *)
Lemma TryLoadingSingleRuntime_closes build plat manifest_file any_loaded last_error w :
  let r := TryLoadingSingleRuntime build plat manifest_file any_loaded last_error w in
  closed_libraries (w_trace (snd r)) ++ held_library (snd r) ≡ₚ
    (closed_libraries (w_trace w) ++ held_library w)
      ++ (if library_opens plat manifest_file then [LibraryPath manifest_file] else []).
Proof.
  unfold library_opens, TryLoadingSingleRuntime. cbv zeta.
  destruct (LoaderPlatformLibraryOpen plat (LibraryPath manifest_file)) as [lib|];
    [|now close_step I].
  pose proof (call_negotiate_closes build manifest_file lib) as Hn.
  destruct (forward_initialize build manifest_file lib) as [ires|];
    [destruct (negb (XR_SUCCEEDED ires)); [unfold held_library; now close_step Hn|]|];
    destruct (call_negotiate build manifest_file lib) as [[res runtime_info] evs];
    cbn [snd] in Hn;
    (destruct (XR_FAILED (check_negotiation build res runtime_info));
       [|destruct (getInstanceProcAddr runtime_info) as [gipa|]]);
    try (unfold held_library; now close_step Hn);
    cbn [fst snd];
    match goal with
    | |- context [use_runtime ?p ?g ?w0] =>
        destruct (use_runtime_closes p g w0) as [-> ->]
    end;
    unfold held_library; now close_step Hn.
Qed.

Lemma scan_manifest_files_closes build plat files any_loaded last_error w :
  let r := scan_manifest_files build plat files any_loaded last_error w in
  closed_libraries (w_trace (snd r)) ++ held_library (snd r) ≡ₚ
    (closed_libraries (w_trace w) ++ held_library w)
      ++ map LibraryPath (List.filter (library_opens plat) files).
Proof.
  revert any_loaded last_error w. induction files as [|m files IH]; intros al le w.
  - simpl. now rewrite app_nil_r.
  - simpl.
    pose proof (TryLoadingSingleRuntime_closes build plat m al le w) as Hm.
    destruct (TryLoadingSingleRuntime build plat m al le w) as [[al1 le1] w1].
    cbn [snd] in Hm. rewrite IH, Hm.
    destruct (library_opens plat m); simpl.
    + now rewrite <- app_assoc.
    + now rewrite app_nil_r.
Qed.

(** X5: no library handle is lost in a scan.  The libraries closed so
    far, together with the one the session holds, are, up to order, those
    closed before the call and the libraries of the candidates that opened:
    each of them is closed once or is the one that is bound. *)
Theorem LoadRuntime_keeps_no_library (build : LoaderBuild) (plat : Platform) (w : World) :
  scans build plat w ->
  let w' := snd (LoadRuntime build plat w) in
  closed_libraries (w_trace w') ++ held_library w' ≡ₚ
    closed_libraries (w_trace w)
      ++ map LibraryPath (List.filter (library_opens plat) (snd (FindManifestFiles plat))).
Proof.
  intros Hscan w'. subst w'. rewrite (LoadRuntime_scans build plat w Hscan).
  cbv zeta. cbn [snd]. rewrite scan_manifest_files_closes.
  destruct Hscan as (Hw & _). unfold held_library. cbn. rewrite Hw.
  rewrite closed_libraries_app. cbn. now rewrite !app_nil_r.
Qed.

Lemma LoadRuntime_keeps_no_library_witness :
  closed_libraries
    (w_trace (snd (LoadRuntime desktop_build two_good_runtimes (empty_world false))))
    ++ ["b.so"] ≡ₚ ["a.so"; "b.so"].
Proof.
  exact (LoadRuntime_keeps_no_library desktop_build two_good_runtimes (empty_world false)
           two_good_runtimes_scans).
Defined.

(** X6: UnloadRuntime after a scan closes the library that was still
    held: every library that opened is then closed, once; there is no
    session, and a second UnloadRuntime changes nothing. *)
Theorem UnloadRuntime_after_load (build : LoaderBuild) (plat : Platform) (w : World) :
  scans build plat w ->
  let w' := UnloadRuntime (snd (LoadRuntime build plat w)) in
  w_instance w' = None /\
  closed_libraries (w_trace w') ≡ₚ
    closed_libraries (w_trace w)
      ++ map LibraryPath (List.filter (library_opens plat) (snd (FindManifestFiles plat))) /\
  UnloadRuntime w' = w'.
Proof.
  intros Hscan w'.
  pose proof (LoadRuntime_scans build plat w Hscan) as Hload.
  pose proof (scan_manifest_files_closes build plat (snd (FindManifestFiles plat)) false
                (fst (FindManifestFiles plat)) (emit EvFindManifestFiles w)) as Hclosed.
  subst w'. rewrite Hload. cbv zeta in *. cbn [snd].
  destruct (scan_manifest_files build plat (snd (FindManifestFiles plat)) false
              (fst (FindManifestFiles plat)) (emit EvFindManifestFiles w))
    as [[al le] w1].
  cbn [snd] in *.
  assert (Hstart : closed_libraries (w_trace (emit EvFindManifestFiles w))
                     ++ held_library (emit EvFindManifestFiles w)
                   = closed_libraries (w_trace w)).
  { destruct Hscan as (Hw & _). unfold held_library. cbn. rewrite Hw.
    rewrite closed_libraries_app. cbn. now rewrite !app_nil_r. }
  rewrite Hstart in Hclosed. unfold UnloadRuntime, held_library in *.
  destruct (w_instance w1) as [s|] eqn:Hs.
  - cbn. rewrite Hs. split; [reflexivity|]. split; [|reflexivity].
    rewrite closed_libraries_app. cbn. exact Hclosed.
  - rewrite Hs. split; [reflexivity|]. split; [|reflexivity].
    now rewrite app_nil_r in Hclosed.
Qed.

Lemma UnloadRuntime_after_load_witness :
  let w' := UnloadRuntime (snd (LoadRuntime desktop_build two_good_runtimes
                                  (empty_world false))) in
  w_instance w' = None /\
  closed_libraries (w_trace w') ≡ₚ ["a.so"; "b.so"] /\
  UnloadRuntime w' = w'.
Proof.
  exact (UnloadRuntime_after_load desktop_build two_good_runtimes (empty_world false)
           two_good_runtimes_scans).
Defined.

(** ** The session that a scan binds *)

Lemma overwrite_all_nil rt : overwrite_all rt [] = [].
Proof. induction rt as [|e rt IH]; [reflexivity|exact IH]. Qed.

Lemma runtime_only_nil rt : runtime_only [] rt = rt.
Proof.
  unfold runtime_only. induction rt as [|e rt IH]; [reflexivity|].
  cbn [List.filter has_name existsb negb]. now f_equal.
Qed.

Lemma session_of_supported_extensions path gipa :
  _supported_extensions (session_of path gipa)
    = map extensionName (rt_xrEnumerateInstanceExtensionProperties gipa).
Proof.
  unfold session_of. cbn [_supported_extensions SetSupportedExtensions].
  rewrite GetInstanceExtensionProperties_spec. cbv zeta.
  cbn [_get_instance_proc_addr RuntimeInterface_new].
  now rewrite overwrite_all_nil, runtime_only_nil.
Qed.

Lemma SupportsExtension_In self extension_name :
  SupportsExtension self extension_name = true <->
  In extension_name (_supported_extensions self).
Proof.
  unfold SupportsExtension. rewrite existsb_exists. split.
  - intros (x & Hin & Heq). apply String.eqb_eq in Heq. now subst.
  - intros Hin. exists extension_name. split; [exact Hin|apply String.eqb_refl].
Qed.

(** A candidate that is accepted binds the session of its own library,
    which did open. *)
Lemma runtime_of_session build plat manifest_file s :
  runtime_of build plat manifest_file = Some s ->
  library_opens plat manifest_file = true /\
  exists gipa, s = session_of (LibraryPath manifest_file) gipa.
Proof.
  unfold runtime_of, library_opens, TryLoadingSingleRuntime. cbv zeta.
  destruct (LoaderPlatformLibraryOpen plat (LibraryPath manifest_file)) as [lib|];
    [|discriminate].
  destruct (forward_initialize build manifest_file lib) as [ires|];
    [destruct (negb (XR_SUCCEEDED ires)); [discriminate|]|];
    destruct (call_negotiate build manifest_file lib) as [[res runtime_info] evs];
    (destruct (XR_FAILED (check_negotiation build res runtime_info));
       [discriminate|destruct (getInstanceProcAddr runtime_info) as [gipa|];
                       [|discriminate]]);
    cbn [fst snd];
    match goal with
    | |- context [use_runtime ?p ?g ?w0] =>
        destruct (use_runtime_spec p g w0) as (-> & _)
    end;
    intros [= <-]; split; eauto.
Qed.

(** What holds of the session before a scan and of every session a
    candidate binds holds of the session after the scan. *)
Lemma scan_manifest_files_instance build plat (P : option RuntimeInterface -> Prop)
    files any_loaded last_error w :
  P (w_instance w) ->
  (forall m s, In m files -> runtime_of build plat m = Some s -> P (Some s)) ->
  P (w_instance (snd (scan_manifest_files build plat files any_loaded last_error w))).
Proof.
  revert any_loaded last_error w.
  induction files as [|m files IH]; intros al le w Hw Hbind; [exact Hw|].
  simpl.
  destruct (TryLoadingSingleRuntime_cases build plat m al le w) as (_ & _ & Hc).
  destruct (TryLoadingSingleRuntime build plat m al le w) as [[al1 le1] w1].
  cbn [fst snd] in Hc. apply IH.
  - destruct (runtime_of build plat m) as [s|] eqn:Hs.
    + destruct Hc as [_ ->]. apply (Hbind m s); [now left|exact Hs].
    + destruct Hc as [_ ->]. exact Hw.
  - intros m' s' Hin. apply Hbind. now right.
Qed.

(** X7: the session that LoadRuntime leaves on a process that had none
    is new: its cache of dispatch tables and its messenger registry are
    empty, its library is that of a manifest of the search whose library
    opened, and SupportsExtension answers true exactly for the names that
    its runtime enumerates. *)
Theorem LoadRuntime_session_is_new (build : LoaderBuild) (plat : Platform) (w : World)
    (s : RuntimeInterface) :
  w_instance w = None ->
  w_instance (snd (LoadRuntime build plat w)) = Some s ->
  _dispatch_table_map s = ∅ /\
  _messenger_to_instance_map s = ∅ /\
  (exists m, In m (snd (FindManifestFiles plat)) /\
             library_opens plat m = true /\ _runtime_library s = LibraryPath m) /\
  (forall extension_name,
     SupportsExtension s extension_name = true <->
     In extension_name
        (map extensionName
             (rt_xrEnumerateInstanceExtensionProperties (_get_instance_proc_addr s)))).
Proof.
  intros Hw. unfold LoadRuntime. rewrite Hw.
  destruct (XR_KHR_LOADER_INIT_SUPPORT build && negb (w_initialized w));
    [cbn [snd]; congruence|].
  destruct (FindManifestFiles plat) as [found files]. cbn [snd].
  destruct (XR_FAILED found); [cbn; congruence|].
  pose proof (scan_manifest_files_instance build plat
    (fun o => forall s, o = Some s ->
       exists m gipa, In m files /\ library_opens plat m = true /\
                      s = session_of (LibraryPath m) gipa)
    files false found (emit EvFindManifestFiles w)) as Hinv.
  destruct (scan_manifest_files build plat files false found (emit EvFindManifestFiles w))
    as [[al le] w'].
  cbn [snd] in *. intros Hs.
  destruct (Hinv) with (s := s) as (m & gipa & Hin & Hopens & ->); [| |exact Hs|].
  - cbn. congruence.
  - intros m s' Hin Hr s'' [= <-].
    destruct (runtime_of_session build plat m s' Hr) as (Hopens & gipa & ->). eauto.
  - split; [reflexivity|]. split; [reflexivity|]. split; [eauto|].
    intros extension_name.
    now rewrite SupportsExtension_In, session_of_supported_extensions.
Qed.

Lemma LoadRuntime_session_is_new_witness :
  SupportsExtension (session_of "b.so" sample_procs) "B" = true /\
  SupportsExtension (session_of "b.so" sample_procs) "b" = false.
Proof.
  destruct (LoadRuntime_session_is_new desktop_build two_good_runtimes (empty_world false)
              (session_of "b.so" sample_procs) eq_refl eq_refl)
    as (_ & _ & _ & Hsupports).
  split.
  - apply Hsupports. simpl. now left.
  - apply not_true_is_false. intros H. apply Hsupports in H.
    simpl in H. destruct H as [H|[H|[]]]; discriminate H.
Defined.

(** ** More on the merge of the extension lists *)

Lemma enumerate_two_call_events gipa :
  snd (enumerate_two_call gipa) =
    match rt_xrEnumerateInstanceExtensionProperties gipa with
    | [] => [EvEnumerateExtensions]
    | _ :: _ => [EvEnumerateExtensions; EvEnumerateExtensions]
    end.
Proof.
  unfold enumerate_two_call.
  now destruct (rt_xrEnumerateInstanceExtensionProperties gipa).
Qed.

Lemma GetInstanceExtensionProperties_events self c :
  snd (GetInstanceExtensionProperties self c)
    = snd (enumerate_two_call (_get_instance_proc_addr self)).
Proof.
  unfold GetInstanceExtensionProperties.
  now destruct (enumerate_two_call (_get_instance_proc_addr self)).
Qed.

(** X8: the count-then-fill convention and its edges.  A runtime that
    reports no extension is asked once and the list stays as it is; a
    runtime that reports some is asked twice; and an empty list becomes the
    runtime's list, entry for entry. *)
Theorem enumeration_edges (self : RuntimeInterface)
    (candidates : list XrExtensionProperties) :
  let rt := rt_xrEnumerateInstanceExtensionProperties (_get_instance_proc_addr self) in
  (rt = [] ->
     GetInstanceExtensionProperties self candidates = (candidates, [EvEnumerateExtensions])) /\
  (rt <> [] ->
     snd (GetInstanceExtensionProperties self candidates)
       = [EvEnumerateExtensions; EvEnumerateExtensions]) /\
  fst (GetInstanceExtensionProperties self []) = rt.
Proof.
  intros rt. split; [|split].
  - intros Hrt. apply injective_projections.
    + rewrite GetInstanceExtensionProperties_spec. cbv zeta. fold rt. rewrite Hrt.
      cbn. apply app_nil_r.
    + rewrite GetInstanceExtensionProperties_events, enumerate_two_call_events.
      fold rt. now rewrite Hrt.
  - intros Hrt. rewrite GetInstanceExtensionProperties_events, enumerate_two_call_events.
    fold rt. now destruct rt.
  - rewrite GetInstanceExtensionProperties_spec. cbv zeta. fold rt.
    now rewrite overwrite_all_nil, runtime_only_nil.
Qed.

Lemma enumeration_edges_witness :
  GetInstanceExtensionProperties (RuntimeInterface_new "a.so" partial_procs)
    [ {| extensionName := "A"; extensionVersion := 1 |} ]
  = ([ {| extensionName := "A"; extensionVersion := 1 |} ], [EvEnumerateExtensions]) /\
  snd (GetInstanceExtensionProperties sample_session [])
  = [EvEnumerateExtensions; EvEnumerateExtensions].
Proof.
  split.
  - apply (enumeration_edges (RuntimeInterface_new "a.so" partial_procs)). reflexivity.
  - apply (enumeration_edges sample_session []). discriminate.
Defined.

Lemma has_name_app name l1 l2 : has_name name (l1 ++ l2) = has_name name l1 || has_name name l2.
Proof. apply existsb_app. Qed.

Lemma has_name_cons name e l :
  has_name name (e :: l) = strcmp_eq (extensionName e) name || has_name name l.
Proof. reflexivity. Qed.

Lemma has_name_runtime_only name c rt :
  has_name name (runtime_only c rt) = has_name name rt && negb (has_name name c).
Proof.
  unfold runtime_only. induction rt as [|e rt IH]; [reflexivity|].
  cbn [List.filter]. rewrite (has_name_cons name e rt).
  destruct (has_name (extensionName e) c) eqn:He; cbn [negb].
  - rewrite IH.
    destruct (strcmp_eq (extensionName e) name) eqn:Hn; [|reflexivity].
    apply strcmp_eq_true in Hn. subst name. rewrite He. cbn.
    now rewrite andb_false_r.
  - rewrite has_name_cons, IH.
    destruct (strcmp_eq (extensionName e) name) eqn:Hn; [|reflexivity].
    apply strcmp_eq_true in Hn. subst name. now rewrite He.
Qed.

Lemma has_name_merged name rt c :
  has_name name (overwrite_all rt c ++ runtime_only c rt)
    = has_name name c || has_name name rt.
Proof.
  rewrite has_name_app, has_name_runtime_only.
  rewrite (has_name_names name _ _ (overwrite_all_names rt c)).
  destruct (has_name name c), (has_name name rt); reflexivity.
Qed.

(** X9: the names of the merged list are those of the candidates and
    those of the runtime, no other; the list grows by the runtime's entries
    that no candidate names, so by at most the length of the runtime's
    list, and never shrinks. *)
Theorem merged_names (self : RuntimeInterface) (candidates : list XrExtensionProperties) :
  let rt := rt_xrEnumerateInstanceExtensionProperties (_get_instance_proc_addr self) in
  let merged := fst (GetInstanceExtensionProperties self candidates) in
  (forall name, has_name name merged = has_name name candidates || has_name name rt) /\
  length merged = (length candidates + length (runtime_only candidates rt))%nat /\
  (length candidates <= length merged <= length candidates + length rt)%nat.
Proof.
  intros rt merged. subst merged. rewrite GetInstanceExtensionProperties_spec.
  cbv zeta. fold rt.
  assert (Hlen : length (overwrite_all rt candidates ++ runtime_only candidates rt)
                 = (length candidates + length (runtime_only candidates rt))%nat)
    by now rewrite length_app, overwrite_all_length.
  split; [intros name; apply has_name_merged|]. split; [exact Hlen|].
  rewrite Hlen. unfold runtime_only.
  pose proof (List.filter_length_le
                (fun e => negb (has_name (extensionName e) candidates)) rt).
  lia.
Qed.

Lemma find_first_app_l name l1 l2 i :
  find_first name (l1 ++ l2) = Some i -> (i < length l1)%nat ->
  find_first name l1 = Some i.
Proof.
  revert i. induction l1 as [|p l1 IH]; intros i; simpl; [lia|].
  destruct (strcmp_eq (extensionName p) name); [auto|].
  destruct (find_first name (l1 ++ l2)) as [j|] eqn:Hj; simpl; [|discriminate].
  intros [= <-] Hlt. rewrite (IH j eq_refl); [reflexivity|lia].
Qed.

(** A list that already carries the runtime's versions is left as it is. *)
Lemma overwrite_all_fixed rt l :
  (forall i p v, l !! i = Some p -> find_first (extensionName p) l = Some i ->
                 reported_version (extensionName p) rt = Some v ->
                 extensionVersion p = v) ->
  overwrite_all rt l = l.
Proof.
  intros Hfixed. apply list_eq. intros i.
  destruct (l !! i) as [p|] eqn:Hp.
  - rewrite (overwrite_all_lookup rt l i p Hp). f_equal.
    case_decide as Hfirst; [|reflexivity].
    destruct (reported_version (extensionName p) rt) as [v|] eqn:Hv; simpl.
    + rewrite <- (Hfixed i p v Hp Hfirst Hv). now destruct p.
    + now destruct p.
  - apply lookup_ge_None. rewrite overwrite_all_length. now apply lookup_ge_None.
Qed.

Lemma runtime_only_In e c rt : In e (runtime_only c rt) -> In e rt.
Proof. unfold runtime_only. intros H. now apply List.filter_In in H as [H _]. Qed.

Lemma runtime_only_none c rt :
  (forall e, In e rt -> has_name (extensionName e) c = true) -> runtime_only c rt = [].
Proof.
  unfold runtime_only. induction rt as [|e rt IH]; intros Hall; [reflexivity|].
  cbn [List.filter]. rewrite (Hall e) by now left. cbn [negb].
  apply IH. intros e' He'. apply Hall. now right.
Qed.

(** X10: when the runtime lists each name once, merging a second time
    changes nothing: the list that GetInstanceExtensionProperties produced
    is a fixed point of it. *)
Theorem merge_idempotent (self : RuntimeInterface) (candidates : list XrExtensionProperties) :
  NoDup (map extensionName
           (rt_xrEnumerateInstanceExtensionProperties (_get_instance_proc_addr self))) ->
  let merged := fst (GetInstanceExtensionProperties self candidates) in
  fst (GetInstanceExtensionProperties self merged) = merged.
Proof.
  intros Hnd merged. subst merged. rewrite !GetInstanceExtensionProperties_spec.
  cbv zeta.
  set (rt := rt_xrEnumerateInstanceExtensionProperties (_get_instance_proc_addr self)) in *.
  set (merged := overwrite_all rt candidates ++ runtime_only candidates rt).
  assert (Honly : runtime_only merged rt = []).
  { apply runtime_only_none. intros e He. subst merged.
    rewrite has_name_merged, (In_has_name e rt He). now rewrite orb_true_r. }
  rewrite Honly, app_nil_r. apply overwrite_all_fixed.
  intros i p v Hp Hfirst Hv. subst merged.
  destruct (Nat.lt_ge_cases i (length (overwrite_all rt candidates))) as [Hlt|Hge].
  - rewrite lookup_app_l in Hp by exact Hlt.
    apply find_first_app_l in Hfirst; [|exact Hlt].
    rewrite (find_first_names _ _ _ (overwrite_all_names rt candidates)) in Hfirst.
    rewrite overwrite_all_length in Hlt.
    destruct (lookup_lt_is_Some_2 candidates i Hlt) as [p0 Hp0].
    rewrite (overwrite_all_lookup rt candidates i p0 Hp0) in Hp.
    injection Hp as Hp. case_decide as Hd.
    + subst p. cbn in *. now rewrite Hv.
    + subst p. contradiction.
  - rewrite lookup_app_r in Hp by exact Hge.
    apply list_elem_of_lookup_2, list_elem_of_In, runtime_only_In in Hp.
    rewrite (reported_version_NoDup p rt Hnd Hp) in Hv. congruence.
Qed.

Lemma merge_idempotent_witness :
  let merged :=
    fst (GetInstanceExtensionProperties sample_session
           [ {| extensionName := "A"; extensionVersion := 1 |};
             {| extensionName := "B"; extensionVersion := 1 |} ]) in
  fst (GetInstanceExtensionProperties sample_session merged) = merged.
Proof.
  apply (merge_idempotent sample_session).
  repeat constructor; rewrite ?list_elem_of_In; simpl; intuition discriminate.
Defined.

(** A runtime that lists a name twice with two versions: the second merge
    moves the later version onto the first of the appended entries. *)
Example merge_not_idempotent_on_repeated_names :
  let self := RuntimeInterface_new "a.so" repeating_procs in
  fst (GetInstanceExtensionProperties self []) =
    [ {| extensionName := "C"; extensionVersion := 1 |};
      {| extensionName := "C"; extensionVersion := 2 |} ] /\
  fst (GetInstanceExtensionProperties self (fst (GetInstanceExtensionProperties self []))) =
    [ {| extensionName := "C"; extensionVersion := 2 |};
      {| extensionName := "C"; extensionVersion := 2 |} ].
Proof. split; reflexivity. Qed.

(** ** More on messengers *)

Lemma messenger_instance_track instance messenger self m' :
  messenger_instance (snd (TrackDebugMessenger instance messenger self)) m'
    = if decide (messenger = m') then instance else messenger_instance self m'.
Proof.
  unfold messenger_instance, TrackDebugMessenger.
  cbn [snd _messenger_to_instance_map with_messenger_to_instance_map].
  rewrite lookup_insert. now destruct (decide (messenger = m')).
Qed.

(** X11: TrackDebugMessenger always answers true; afterwards the
    messenger resolves to the instance it was tracked with, also when it
    was tracked with another one before, and gets that instance's table;
    other messengers and the cache are as they were. *)
Theorem TrackDebugMessenger_round_trip (instance : XrInstance)
    (messenger : XrDebugUtilsMessengerEXT) (self : RuntimeInterface) :
  let self' := snd (TrackDebugMessenger instance messenger self) in
  fst (TrackDebugMessenger instance messenger self) = true /\
  messenger_instance self' messenger = instance /\
  GetDebugUtilsMessengerDispatchTable self' messenger = GetDispatchTable self instance /\
  (forall m', m' <> messenger ->
     GetDebugUtilsMessengerDispatchTable self' m'
       = GetDebugUtilsMessengerDispatchTable self m') /\
  _dispatch_table_map self' = _dispatch_table_map self.
Proof.
  intros self'. subst self'.
  assert (Hself : messenger_instance (snd (TrackDebugMessenger instance messenger self))
                    messenger = instance).
  { rewrite messenger_instance_track. now rewrite decide_True. }
  split; [reflexivity|]. split; [exact Hself|]. split; [|split; [|reflexivity]].
  - unfold GetDebugUtilsMessengerDispatchTable. now rewrite Hself.
  - intros m' Hne. unfold GetDebugUtilsMessengerDispatchTable.
    rewrite messenger_instance_track. now rewrite decide_False by congruence.
Qed.

Lemma TrackDebugMessenger_round_trip_witness :
  GetDebugUtilsMessengerDispatchTable (snd (TrackDebugMessenger 7 6 sample_session)) 5
    = GetDebugUtilsMessengerDispatchTable sample_session 5.
Proof.
  destruct (TrackDebugMessenger_round_trip 7 6 sample_session) as (_ & _ & _ & Hother & _).
  apply Hother. lia.
Defined.

Lemma messenger_instance_forget messenger self m' :
  messenger_instance (ForgetDebugMessenger messenger self) m'
    = if decide (messenger <> XR_NULL_HANDLE /\ messenger = m')
      then XR_NULL_HANDLE else messenger_instance self m'.
Proof.
  unfold messenger_instance, ForgetDebugMessenger.
  destruct (Z.eqb_spec XR_NULL_HANDLE messenger) as [Hn|Hn]; cbn [negb].
  - destruct (decide (messenger <> XR_NULL_HANDLE /\ messenger = m')) as [[Hd _]|_];
      [congruence|reflexivity].
  - cbn [_messenger_to_instance_map with_messenger_to_instance_map].
    rewrite lookup_delete.
    destruct (decide (messenger = m')) as [He|He];
      destruct (decide (messenger <> XR_NULL_HANDLE /\ messenger = m')) as [Hd|Hd];
      try reflexivity; exfalso; [apply Hd; split; congruence|tauto].
Qed.

Lemma with_messenger_to_instance_map_id self :
  with_messenger_to_instance_map self (_messenger_to_instance_map self) = self.
Proof. now destruct self. Qed.

(** X12: ForgetDebugMessenger removes the entry of a non-null messenger
    and nothing else; a messenger that is not tracked, and the null
    messenger, leave the session as it is, so the null messenger, once
    tracked, cannot be forgotten. *)
Theorem ForgetDebugMessenger_removes_one (messenger : XrDebugUtilsMessengerEXT)
    (self : RuntimeInterface) :
  (messenger <> XR_NULL_HANDLE ->
     messenger_instance (ForgetDebugMessenger messenger self) messenger = XR_NULL_HANDLE) /\
  (forall m', m' <> messenger ->
     messenger_instance (ForgetDebugMessenger messenger self) m'
       = messenger_instance self m') /\
  (_messenger_to_instance_map self !! messenger = None ->
     ForgetDebugMessenger messenger self = self) /\
  ForgetDebugMessenger XR_NULL_HANDLE self = self /\
  (forall instance,
     messenger_instance
       (ForgetDebugMessenger XR_NULL_HANDLE
          (snd (TrackDebugMessenger instance XR_NULL_HANDLE self))) XR_NULL_HANDLE
     = instance).
Proof.
  split; [|split; [|split; [|split]]].
  - intros Hnn. rewrite messenger_instance_forget. now rewrite decide_True.
  - intros m' Hne. rewrite messenger_instance_forget.
    rewrite decide_False; [reflexivity|]. intros [_ He]. congruence.
  - intros Habsent. unfold ForgetDebugMessenger.
    destruct (negb (XR_NULL_HANDLE =? messenger)); [|reflexivity].
    rewrite (delete_id _ _ Habsent). apply with_messenger_to_instance_map_id.
  - reflexivity.
  - intros instance. cbn [ForgetDebugMessenger Z.eqb XR_NULL_HANDLE negb].
    rewrite messenger_instance_track. now rewrite decide_True.
Qed.

Lemma ForgetDebugMessenger_removes_one_witness :
  messenger_instance (ForgetDebugMessenger 5 sample_session) 5 = XR_NULL_HANDLE /\
  ForgetDebugMessenger 6 sample_session = sample_session.
Proof.
  split.
  - destruct (ForgetDebugMessenger_removes_one 5 sample_session) as (Hgone & _).
    apply Hgone. unfold XR_NULL_HANDLE. lia.
  - destruct (ForgetDebugMessenger_removes_one 6 sample_session) as (_ & _ & Hid & _).
    apply Hid. reflexivity.
Defined.

Lemma DestroyInstance_messengers instance self tr :
  _messenger_to_instance_map (fst (snd (DestroyInstance instance self tr)))
    = _messenger_to_instance_map self.
Proof.
  unfold DestroyInstance. destruct (negb (XR_NULL_HANDLE =? instance)); [|reflexivity].
  now destruct (_dispatch_table_map self !! instance).
Qed.

Lemma CreateInstance_messengers answer self tr :
  _messenger_to_instance_map (fst (snd (CreateInstance answer self tr)))
    = _messenger_to_instance_map self.
Proof.
  destruct answer as [res instance]. rewrite CreateInstance_spec. cbn [fst snd].
  now destruct (XR_SUCCEEDED res).
Qed.

(** X13: DestroyInstance does not touch the messenger registry.  A
    messenger of the destroyed instance still resolves to its handle: it
    gets no table while the handle is gone, and the table of the new
    instance once the runtime hands the same handle out again. *)
Theorem messenger_outlives_instance (self : RuntimeInterface) (tr : list Event)
    (instance : XrInstance) (messenger : XrDebugUtilsMessengerEXT) :
  _messenger_to_instance_map self !! messenger = Some instance ->
  instance <> XR_NULL_HANDLE ->
  let st1 := snd (DestroyInstance instance self tr) in
  messenger_instance (fst st1) messenger = instance /\
  GetDebugUtilsMessengerDispatchTable (fst st1) messenger = None /\
  (forall res, XR_SUCCEEDED res = true ->
     let self2 := fst (snd (CreateInstance (res, instance) (fst st1) (snd st1))) in
     GetDebugUtilsMessengerDispatchTable self2 messenger
       = Some (GeneratedXrPopulateDispatchTable instance (_get_instance_proc_addr self))).
Proof.
  intros Hm Hnn st1.
  assert (Howner : messenger_instance (fst st1) messenger = instance).
  { unfold messenger_instance. subst st1. now rewrite DestroyInstance_messengers, Hm. }
  split; [exact Howner|]. split.
  - unfold GetDebugUtilsMessengerDispatchTable. rewrite Howner, GetDispatchTable_lookup.
    subst st1. rewrite DestroyInstance_lookup. now rewrite decide_True.
  - intros res Hres self2.
    assert (Howner2 : messenger_instance self2 messenger = instance).
    { unfold messenger_instance. subst self2 st1.
      now rewrite CreateInstance_messengers, DestroyInstance_messengers, Hm. }
    unfold GetDebugUtilsMessengerDispatchTable. rewrite Howner2, GetDispatchTable_lookup.
    subst self2. rewrite CreateInstance_lookup. rewrite decide_True by now split.
    do 2 f_equal. subst st1. unfold DestroyInstance.
    destruct (negb (XR_NULL_HANDLE =? instance)); [|reflexivity].
    now destruct (_dispatch_table_map self !! instance).
Qed.

Lemma messenger_outlives_instance_witness :
  let st1 := snd (DestroyInstance 7 sample_session []) in
  messenger_instance (fst st1) 5 = 7 /\
  GetDebugUtilsMessengerDispatchTable (fst st1) 5 = None.
Proof.
  intros st1.
  destruct (messenger_outlives_instance sample_session [] 7 5) as (Howner & Hnone & _).
  - reflexivity.
  - unfold XR_NULL_HANDLE. lia.
  - split; [exact Howner|exact Hnone].
Defined.

(** ** More on CreateInstance *)

(** X14: CreateInstance hands the answer of the runtime's
    xrCreateInstance through, result and handle, and does not call the
    runtime's xrDestroyInstance.  A failed creation leaves the session as
    it is; a creation that succeeded, with any non-negative result, puts a
    table under the new handle in place of one that was there, and leaves
    the tables of the other handles and the messengers. *)
Theorem CreateInstance_passes_answer (answer : XrResult * XrInstance)
    (self : RuntimeInterface) (tr : list Event) :
  let r := CreateInstance answer self tr in
  fst r = answer /\
  (forall h, destroy_calls (snd (snd r)) h = destroy_calls tr h) /\
  _messenger_to_instance_map (fst (snd r)) = _messenger_to_instance_map self /\
  (XR_SUCCEEDED (fst answer) = false -> fst (snd r) = self) /\
  (XR_SUCCEEDED (fst answer) = true ->
     GetDispatchTable (fst (snd r)) (snd answer)
       = Some (GeneratedXrPopulateDispatchTable (snd answer) (_get_instance_proc_addr self))) /\
  (forall h, h <> snd answer ->
     GetDispatchTable (fst (snd r)) h = GetDispatchTable self h).
Proof.
  intros r. subst r.
  split; [destruct answer; now rewrite CreateInstance_spec|].
  split; [intros h; apply CreateInstance_never_destroys|].
  destruct answer as [res instance]. cbn [fst snd].
  split; [apply CreateInstance_messengers|].
  split; [|split].
  - intros Hres. rewrite CreateInstance_spec. cbn [fst snd]. now rewrite Hres.
  - intros Hres. rewrite GetDispatchTable_lookup, CreateInstance_lookup.
    now rewrite decide_True.
  - intros h Hne. rewrite !GetDispatchTable_lookup, CreateInstance_lookup.
    rewrite decide_False; [reflexivity|]. intros [_ He]. congruence.
Qed.

Lemma CreateInstance_passes_answer_witness :
  fst (snd (CreateInstance (XR_ERROR_RUNTIME_FAILURE, 9) sample_session [])) = sample_session /\
  GetDispatchTable (fst (snd (CreateInstance (XR_SUCCESS, 9) sample_session []))) 7
    = GetDispatchTable sample_session 7.
Proof.
  split.
  - destruct (CreateInstance_passes_answer (XR_ERROR_RUNTIME_FAILURE, 9) sample_session [])
      as (_ & _ & _ & Hfailed & _).
    apply Hfailed. reflexivity.
  - destruct (CreateInstance_passes_answer (XR_SUCCESS, 9) sample_session [])
      as (_ & _ & _ & _ & _ & Hother).
    apply Hother. cbn. lia.
Defined.

(** ** A library without the negotiation function *)

Lemma negotiated_libraries_app tr1 tr2 :
  negotiated_libraries (tr1 ++ tr2) = negotiated_libraries tr1 ++ negotiated_libraries tr2.
Proof.
  induction tr1 as [|e tr1 IH]; [reflexivity|].
  destruct e; simpl; now rewrite IH.
Qed.

(** X15: a library that opens, whose forwarded initialisation does not
    fail and that does not export the negotiation function is not
    negotiated with: with no backend bound the slot takes RuntimeFailure,
    flag and session are as they were, and the library, opened once, is
    closed again. *)
Theorem missing_negotiate_is_runtime_failure (build : LoaderBuild) (plat : Platform)
    (manifest_file : RuntimeManifestFile) (lib : RuntimeLibrary)
    (last_error : XrResult) (w : World) :
  LoaderPlatformLibraryOpen plat (LibraryPath manifest_file) = Some lib ->
  match forward_initialize build manifest_file lib with
  | Some ires => XR_SUCCEEDED ires = true
  | None => True
  end ->
  proc_negotiate lib (GetFunctionName manifest_file "xrNegotiateLoaderRuntimeInterface")
    = None ->
  let r := TryLoadingSingleRuntime build plat manifest_file false last_error w in
  fst r = (false, XR_ERROR_RUNTIME_FAILURE) /\
  w_instance (snd r) = w_instance w /\
  negotiated_libraries (w_trace (snd r)) = negotiated_libraries (w_trace w) /\
  opened_libraries (w_trace (snd r))
    = opened_libraries (w_trace w) ++ [LibraryPath manifest_file] /\
  closed_libraries (w_trace (snd r))
    = closed_libraries (w_trace w) ++ [LibraryPath manifest_file].
Proof.
  intros Hopen Hinit Hneg r. subst r.
  unfold TryLoadingSingleRuntime, call_negotiate. rewrite Hopen, Hneg. cbv zeta.
  destruct (forward_initialize build manifest_file lib) as [ires|];
    [rewrite Hinit|]; cbn;
    rewrite ?negotiated_libraries_app, ?opened_libraries_app, ?closed_libraries_app;
    cbn; rewrite ?app_nil_r; auto.
Qed.

Lemma missing_negotiate_is_runtime_failure_witness :
  let r := TryLoadingSingleRuntime desktop_build
             (platform_of [("a.so", library_without_negotiate)])
             (sample_manifest "a.so") false XR_SUCCESS (empty_world false) in
  fst r = (false, XR_ERROR_RUNTIME_FAILURE) /\
  w_instance (snd r) = None /\
  negotiated_libraries (w_trace (snd r)) = [] /\
  opened_libraries (w_trace (snd r)) = ["a.so"] /\
  closed_libraries (w_trace (snd r)) = ["a.so"].
Proof.
  apply (missing_negotiate_is_runtime_failure desktop_build
           (platform_of [("a.so", library_without_negotiate)]) (sample_manifest "a.so")
           library_without_negotiate XR_SUCCESS (empty_world false));
    [reflexivity|exact I|reflexivity].
Defined.

(** ** Failures after a backend is bound *)

(** X16: with a backend bound, a candidate that is not accepted and whose
    forwarded initialisation does not fail changes neither the flag, nor
    the slot, nor the session. *)
Theorem failure_after_bind_is_absorbed (build : LoaderBuild) (plat : Platform)
    (manifest_file : RuntimeManifestFile) (last_error : XrResult) (w : World) :
  accepted build plat manifest_file = false ->
  initialize_passes build plat manifest_file = true ->
  let r := TryLoadingSingleRuntime build plat manifest_file true last_error w in
  fst r = (true, last_error) /\ w_instance (snd r) = w_instance w.
Proof.
  intros Hrej Hinit r.
  destruct (TryLoadingSingleRuntime_cases build plat manifest_file true last_error w)
    as (_ & _ & Hc).
  fold r in Hc. unfold accepted in Hrej.
  destruct (runtime_of build plat manifest_file) as [s|] eqn:Hr; [discriminate|].
  destruct Hc as [_ Hsession]. split; [|exact Hsession]. subst r.
  revert Hr Hinit. unfold runtime_of, initialize_passes, TryLoadingSingleRuntime. cbv zeta.
  destruct (LoaderPlatformLibraryOpen plat (LibraryPath manifest_file)) as [lib|];
    [|reflexivity].
  destruct (forward_initialize build manifest_file lib) as [ires|];
    [intros Hr Hi; rewrite Hi in *; cbn [negb] in *|intros Hr _];
    destruct (call_negotiate build manifest_file lib) as [[res runtime_info] evs];
    (destruct (XR_FAILED (check_negotiation build res runtime_info));
       [reflexivity|destruct (getInstanceProcAddr runtime_info) as [gipa|];
                      [|reflexivity]]);
    cbn [fst snd] in Hr;
    match type of Hr with
    | context [use_runtime ?p ?g ?w0] =>
        destruct (use_runtime_spec p g w0) as (Hbound & _)
    end; congruence.
Qed.

Lemma failure_after_bind_is_absorbed_witness :
  fst (TryLoadingSingleRuntime desktop_build one_rejected_runtime (sample_manifest "a.so")
         true XR_SUCCESS sample_world) = (true, XR_SUCCESS).
Proof.
  apply (failure_after_bind_is_absorbed desktop_build one_rejected_runtime
           (sample_manifest "a.so") XR_SUCCESS sample_world); reflexivity.
Defined.

(** ** The negotiation calls of a scan *)

Lemma use_runtime_negotiates path gipa w :
  negotiated_libraries (w_trace (use_runtime path gipa w)) = negotiated_libraries (w_trace w).
Proof.
  unfold use_runtime, GetInstanceExtensionProperties, enumerate_two_call.
  cbn [_get_instance_proc_addr RuntimeInterface_new].
  destruct (0 <? _)%nat; cbn; rewrite !negotiated_libraries_app; cbn;
    destruct (w_instance w); cbn; now rewrite !app_nil_r.
Qed.

Lemma TryLoadingSingleRuntime_negotiates build plat manifest_file any_loaded last_error w :
  negotiated_libraries
    (w_trace (snd (TryLoadingSingleRuntime build plat manifest_file any_loaded last_error w)))
  = negotiated_libraries (w_trace w)
      ++ (if reaches_negotiation build plat manifest_file
          then [LibraryPath manifest_file] else []).
Proof.
  unfold reaches_negotiation, TryLoadingSingleRuntime, call_negotiate. cbv zeta.
  destruct (LoaderPlatformLibraryOpen plat (LibraryPath manifest_file)) as [lib|];
    [|cbn; rewrite negotiated_libraries_app; cbn; now rewrite !app_nil_r].
  destruct (forward_initialize build manifest_file lib) as [ires|];
    [destruct (XR_SUCCEEDED ires); cbn [negb andb];
       [|cbn; rewrite !negotiated_libraries_app; cbn; now rewrite !app_nil_r]|];
    (destruct (proc_negotiate lib _) as [negotiate|];
       [destruct (negotiate _ _) as [res runtime_info]|]);
    (destruct (XR_FAILED (check_negotiation build _ _));
       [|destruct (getInstanceProcAddr _) as [gipa|]]);
    cbn [fst snd andb]; rewrite ?use_runtime_negotiates;
    cbn; rewrite ?negotiated_libraries_app; cbn; now rewrite ?app_nil_r.
Qed.

(** X17: in a scan the negotiation function is called once for each
    candidate whose library opens, whose forwarded initialisation does not
    fail and whose library exports the function, in the order of the
    manifests, and for no other candidate. *)
Theorem LoadRuntime_negotiates_once (build : LoaderBuild) (plat : Platform) (w : World) :
  scans build plat w ->
  negotiated_libraries (w_trace (snd (LoadRuntime build plat w)))
  = negotiated_libraries (w_trace w)
      ++ map LibraryPath
           (List.filter (reaches_negotiation build plat) (snd (FindManifestFiles plat))).
Proof.
  intros Hscan. rewrite (LoadRuntime_scans build plat w Hscan). cbv zeta. cbn [snd].
  assert (Hstart : negotiated_libraries (w_trace (emit EvFindManifestFiles w))
                   = negotiated_libraries (w_trace w)).
  { cbn. rewrite negotiated_libraries_app. cbn. apply app_nil_r. }
  rewrite <- Hstart.
  generalize (emit EvFindManifestFiles w) as w0.
  generalize (fst (FindManifestFiles plat)) as le. generalize false as al.
  induction (snd (FindManifestFiles plat)) as [|m files IH]; intros al le w0.
  - cbn. now rewrite app_nil_r.
  - cbn [scan_manifest_files].
    pose proof (TryLoadingSingleRuntime_negotiates build plat m al le w0) as Hm.
    destruct (TryLoadingSingleRuntime build plat m al le w0) as [[al1 le1] w1].
    cbn [snd] in Hm. rewrite IH, Hm. cbn [List.filter].
    destruct (reaches_negotiation build plat m); cbn; now rewrite <- app_assoc.
Qed.

Lemma LoadRuntime_negotiates_once_witness :
  negotiated_libraries
    (w_trace (snd (LoadRuntime android_build good_then_failing_init (empty_world true))))
  = ["a.so"].
Proof.
  apply (LoadRuntime_negotiates_once android_build good_then_failing_init (empty_world true)).
  repeat split.
Defined.

(** ** Loading again *)

(** X18: a LoadRuntime that found no backend leaves the process ready
    for another one, which searches the manifests and opens every library
    again. *)
Theorem LoadRuntime_retry_rescans (build : LoaderBuild) (plat : Platform) (w : World) :
  scans build plat w ->
  let w1 := snd (LoadRuntime build plat w) in
  w_instance w1 = None ->
  scans build plat w1 /\
  opened_libraries (w_trace (snd (LoadRuntime build plat w1)))
    = opened_libraries (w_trace w)
        ++ map LibraryPath (snd (FindManifestFiles plat))
        ++ map LibraryPath (snd (FindManifestFiles plat)).
Proof.
  intros Hscan w1 Hnone.
  assert (Hinit : w_initialized w1 = w_initialized w).
  { subst w1. rewrite (LoadRuntime_scans build plat w Hscan). cbv zeta. cbn [snd].
    now rewrite scan_manifest_files_initialized. }
  assert (Hopened : forall w0, scans build plat w0 ->
            opened_libraries (w_trace (snd (LoadRuntime build plat w0)))
            = opened_libraries (w_trace w0) ++ map LibraryPath (snd (FindManifestFiles plat))).
  { intros w0 H0. rewrite (LoadRuntime_scans build plat w0 H0). cbv zeta. cbn [snd].
    rewrite scan_manifest_files_opens. cbn. rewrite opened_libraries_app. cbn.
    now rewrite app_nil_r. }
  assert (Hscan1 : scans build plat w1).
  { destruct Hscan as (_ & Hgate & Hfound). repeat split; [exact Hnone| |exact Hfound].
    now rewrite Hinit. }
  split; [exact Hscan1|].
  rewrite (Hopened w1 Hscan1). subst w1. rewrite (Hopened w Hscan).
  now rewrite <- app_assoc.
Qed.

Lemma LoadRuntime_retry_rescans_witness :
  opened_libraries
    (w_trace (snd (LoadRuntime desktop_build one_rejected_runtime
                     (snd (LoadRuntime desktop_build one_rejected_runtime
                             (empty_world false))))))
  = ["a.so"; "a.so"].
Proof.
  apply (LoadRuntime_retry_rescans desktop_build one_rejected_runtime (empty_world false));
    repeat split.
Defined.
